(** * CEREBRO: the artifact relationship engine

    A shallow embedding of the parts of the repository that compute
    similarity between artifacts, discover connections, persist
    relationships and assemble the relationship graph:

    - [logic/fuzzy_organizer.py]  (module [Fuzzy])
    - [db/database.py], the [relationships] table  (module [Database])
    - [viz/graph_forest.py], [build_artifact_graph]  (module [GraphForest])
    - [db/database.py], the queries and the projects, tags and
      artifact_tags tables  (module [Tables])

    Numbers.  The specification speaks of scores and weights as real
    numbers; Python computes them as binary floating point.  Here they
    are exact rationals ([Q]), compared with [Qeq_bool] and [Qle_bool],
    so rounding, overflow, infinities and NaN are outside the model.

    Strings.  Python [str] is modelled by [string]; [str.lower] is the
    ASCII lower-casing. *)

From Stdlib Require Import ZArith QArith Lqa Lia Ascii String.
From stdpp Require Import gmap strings list fin_maps sorting.

#[local] Set Warnings "-clear-no-such-hyp".

Close Scope Q_scope.
Local Open Scope Z_scope.

(** ** Python values, exceptions *)

(** The attributes of an artifact are read with [getattr] from loosely
    typed objects.  An attribute holds [None], an integer, a string, or a
    list of such atoms. *)
Inductive atom : Type :=
  | ANone
  | AInt (n : Z)
  | AStr (s : string).

Inductive pyval : Type :=
  | Atom (a : atom)
  | PList (l : list atom).

Coercion Atom : atom >-> pyval.

#[global] Instance atom_eq_dec : EqDecision atom.
Proof. solve_decision. Defined.

#[global] Instance pyval_eq_dec : EqDecision pyval.
Proof. solve_decision. Defined.

(** Python's [==] on these values. *)
Definition py_eq (x y : pyval) : bool := bool_decide (x = y).

(** Python truthiness: [None], [0], the empty string and the empty list
    are false. *)
Definition truthy (v : pyval) : bool :=
  match v with
  | Atom ANone => false
  | Atom (AInt n) => negb (n =? 0)
  | Atom (AStr s) => negb (bool_decide (s = EmptyString))
  | PList l => negb (bool_decide (l = []))
  end.

Inductive exn : Type :=
  | AttributeError
  | TypeError
  | ValueError
  | ZeroDivisionError.

(** A computation that returns a value or raises. *)
Inductive result (A : Type) : Type :=
  | Ok (a : A)
  | Raise (e : exn).

Arguments Ok {A} a.
Arguments Raise {A} e.

Definition bind {A B : Type} (m : result A) (k : A -> result B) : result B :=
  match m with
  | Ok a => k a
  | Raise e => Raise e
  end.

Declare Scope py_scope.
Delimit Scope py_scope with py.
Notation "x <- m ;; k" := (bind m (fun x => k))
  (at level 100, m at next level, right associativity) : py_scope.

(** Python's [/] on numbers. *)
Definition truediv (x y : Q) : result Q :=
  if Qeq_bool y 0 then Raise ZeroDivisionError else Ok (x / y)%Q.

(** ** logic/fuzzy_organizer.py *)

Module Fuzzy.

Record Artifact : Type := {
  art_id : option pyval;
  art_title : option pyval;
  art_description : option pyval;
  art_content : option pyval;
  art_tags : option pyval
}.

(** [getattr(obj, name, default)] on an attribute that may be absent. *)
Definition getattr (field : option pyval) (default : pyval) : pyval :=
  match field with
  | Some v => v
  | None => default
  end.

(** [obj.name]: raises [AttributeError] when the attribute is absent. *)
Definition attr (field : option pyval) : result pyval :=
  match field with
  | Some v => Ok v
  | None => Raise AttributeError
  end.

(** [self.weights]: a dictionary with exactly the four keys set in
    [__init__]. *)
Record Weights : Type := {
  w_title : Q;
  w_description : Q;
  w_content : Q;
  w_tags : Q
}.

Inductive log_event : Type :=
  | WarnZeroWeights
  | InfoInitialized (w : Weights)
  | InfoNoArtifacts
  | InfoFinding (target_id : pyval) (threshold : Q)
  | ErrorSimilarity (target_id candidate_id : pyval) (e : exn)
  | InfoFound (n : nat).

Definition weights_total (w : Weights) : Q :=
  (0 + w_title w + w_description w + w_content w + w_tags w)%Q.

Definition num_weights : Z := 4.

Definition _normalize_weights (w : Weights) : result (Weights * list log_event) :=
  let total_weight := weights_total w in
  if Qeq_bool total_weight 0 then
    if 0 <? num_weights then
      (equal_weight <- truediv 1 (inject_Z num_weights) ;;
       Ok ({| w_title := equal_weight; w_description := equal_weight;
              w_content := equal_weight; w_tags := equal_weight |},
           [WarnZeroWeights]))%py
    else Ok (w, [WarnZeroWeights])
  else
    (title <- truediv (w_title w) total_weight ;;
     description <- truediv (w_description w) total_weight ;;
     content <- truediv (w_content w) total_weight ;;
     tags <- truediv (w_tags w) total_weight ;;
     Ok ({| w_title := title; w_description := description;
            w_content := content; w_tags := tags |}, []))%py.

Record FuzzyOrganizer : Type := { weights : Weights }.

(** [FuzzyOrganizer.__init__]: the organizer and what it logged. *)
Definition init (title_weight description_weight content_weight tag_weight : Q)
  : result (FuzzyOrganizer * list log_event) :=
  (normalized <- _normalize_weights {| w_title := title_weight;
                                       w_description := description_weight;
                                       w_content := content_weight;
                                       w_tags := tag_weight |} ;;
   Ok ({| weights := normalized.1 |},
       normalized.2 ++ [InfoInitialized normalized.1]))%py.

(** [FuzzyOrganizer()] with the default arguments 0.4, 0.3, 0.3, 0.3. *)
Definition default_organizer : FuzzyOrganizer :=
  match init (4 # 10) (3 # 10) (3 # 10) (3 # 10) with
  | Ok constructed => constructed.1
  | Raise _ => {| weights := {| w_title := 4 # 10; w_description := 3 # 10;
                                w_content := 3 # 10; w_tags := 3 # 10 |} |}
  end.

(** [str.lower] on ASCII text. *)
Definition lower_ascii (c : ascii) : ascii :=
  let n := nat_of_ascii c in
  if ((65 <=? n) && (n <=? 90))%nat then ascii_of_nat (n + 32) else c.

Fixpoint lower (s : string) : string :=
  match s with
  | EmptyString => EmptyString
  | String c s' => String (lower_ascii c) (lower s')
  end.

(** Iterating over a string yields its one-character strings. *)
Fixpoint chars (s : string) : list string :=
  match s with
  | EmptyString => []
  | String c s' => String c EmptyString :: chars s'
  end.

(** [tag.lower()]: only strings have the method. *)
Definition tag_lower (a : atom) : result string :=
  match a with
  | AStr s => Ok (lower s)
  | _ => Raise AttributeError
  end.

Fixpoint lower_set_of (l : list atom) : result (gset string) :=
  match l with
  | [] => Ok ∅
  | a :: l' =>
      (t <- tag_lower a ;;
       rest <- lower_set_of l' ;;
       Ok ({[ t ]} ∪ rest))%py
  end.

(** [set(tag.lower() for tag in tags)]. *)
Definition lower_set (tags : pyval) : result (gset string) :=
  match tags with
  | PList l => lower_set_of l
  | Atom (AStr s) => lower_set_of (AStr <$> chars s)
  | Atom _ => Raise TypeError
  end.

Definition calculate_tag_similarity (tags1 tags2 : pyval) : result Q :=
  if negb (truthy tags1) || negb (truthy tags2) then Ok 0%Q
  else
    (set1 <- lower_set tags1 ;;
     set2 <- lower_set tags2 ;;
     let common_tags := set1 ∩ set2 in
     if bool_decide (set1 = ∅) && bool_decide (set2 = ∅) then Ok 0%Q
     else
       let union_size := size (set1 ∪ set2) in
       if (union_size =? 0)%nat then Ok 0%Q
       else
         jaccard <- truediv (inject_Z (Z.of_nat (size common_tags)))
                            (inject_Z (Z.of_nat union_size)) ;;
         Ok (jaccard * 100)%Q)%py.

Definition empty_str : pyval := Atom (AStr EmptyString).

Section WithComparator.

(** [fuzz.partial_ratio] of the fuzzywuzzy library: external, taken as
    given.  It is applied to whatever truthy values the attributes
    hold and may raise. *)
Variable partial_ratio : pyval -> pyval -> result Q.

Definition calculate_text_similarity (text1 text2 : pyval) : result Q :=
  if negb (truthy text1) || negb (truthy text2) then Ok 0%Q
  else partial_ratio text1 text2.

Definition calculate_artifact_similarity (self : FuzzyOrganizer)
    (artifact1 artifact2 : Artifact) : result Q :=
  (id1 <- attr (art_id artifact1) ;;
   id2 <- attr (art_id artifact2) ;;
   if py_eq id1 id2 then Ok 0%Q
   else
     title_sim <- calculate_text_similarity
                    (getattr (art_title artifact1) empty_str)
                    (getattr (art_title artifact2) empty_str) ;;
     desc_sim <- calculate_text_similarity
                   (getattr (art_description artifact1) empty_str)
                   (getattr (art_description artifact2) empty_str) ;;
     content_sim <- calculate_text_similarity
                      (getattr (art_content artifact1) empty_str)
                      (getattr (art_content artifact2) empty_str) ;;
     tag_sim <- calculate_tag_similarity
                  (getattr (art_tags artifact1) (PList []))
                  (getattr (art_tags artifact2) (PList [])) ;;
     let w := weights self in
     Ok (w_title w * title_sim + w_description w * desc_sim
         + w_content w * content_sim + w_tags w * tag_sim)%Q)%py.

(** [list.sort(key=lambda item: item[1], reverse=True)].  Python's sort
    is stable, also with [reverse=True]: items whose keys compare equal
    keep their original order.  A stable sort is determined by that,
    so it is modelled by the stable insertion sort. *)
Definition key_lt (x y : Artifact * Q) : bool := negb (Qle_bool (snd y) (snd x)).

Fixpoint insert_reverse (x : Artifact * Q) (l : list (Artifact * Q))
  : list (Artifact * Q) :=
  match l with
  | [] => [x]
  | y :: l' => if key_lt x y then y :: insert_reverse x l' else x :: y :: l'
  end.

Definition sort_reverse (l : list (Artifact * Q)) : list (Artifact * Q) :=
  foldr insert_reverse [] l.

(** The guard of the loop:
    [artifact and getattr(artifact, 'id', None) is not None
     and artifact.id != getattr(target_artifact, 'id', None)].
    A list entry [None] is Python's [None]. *)
Definition is_candidate (target_artifact : Artifact) (artifact : option Artifact)
  : option Artifact :=
  match artifact with
  | Some a =>
      if negb (py_eq (getattr (art_id a) ANone) ANone)
         && negb (py_eq (getattr (art_id a) ANone)
                        (getattr (art_id target_artifact) ANone))
      then Some a else None
  | None => None
  end.

Definition not_available : pyval := Atom (AStr "N/A").

(** One iteration of the loop: what it appends to
    [potential_connections] and what it logs. *)
Definition scan_one (self : FuzzyOrganizer) (target_artifact : Artifact)
    (threshold : Q) (artifact : option Artifact)
  : list (Artifact * Q) * list log_event :=
  match is_candidate target_artifact artifact with
  | Some a =>
      match calculate_artifact_similarity self target_artifact a with
      | Ok score =>
          if Qle_bool threshold score then ([(a, score)], []) else ([], [])
      | Raise e =>
          ([], [ErrorSimilarity (getattr (art_id target_artifact) not_available)
                                (getattr (art_id a) not_available) e])
      end
  | None => ([], [])
  end.

(** The whole loop. *)
Fixpoint scan (self : FuzzyOrganizer) (target_artifact : Artifact)
    (threshold : Q) (all_artifacts : list (option Artifact))
  : list (Artifact * Q) * list log_event :=
  match all_artifacts with
  | [] => ([], [])
  | artifact :: rest =>
      let '(found, logged) := scan_one self target_artifact threshold artifact in
      let '(found', logged') := scan self target_artifact threshold rest in
      (found ++ found', logged ++ logged')
  end.

Definition find_potential_connections (self : FuzzyOrganizer)
    (target_artifact : Artifact) (all_artifacts : list (option Artifact))
    (threshold : Q) : list (Artifact * Q) * list log_event :=
  match all_artifacts with
  | [] => ([], [InfoNoArtifacts])
  | _ =>
      let '(potential_connections, logged) :=
        scan self target_artifact threshold all_artifacts in
      let sorted := sort_reverse potential_connections in
      (sorted,
       [InfoFinding (getattr (art_id target_artifact) not_available) threshold]
         ++ logged ++ [InfoFound (length sorted)])
  end.

End WithComparator.

Definition default_threshold : Q := 70.

(** *** Properties of results, used to state the theorems *)



(** The Jaccard index of two sets: the size of the intersection over the
    size of the union. *)
Definition jaccard_index (A B : gset string) : Q :=
  (inject_Z (Z.of_nat (size (A ∩ B))) / inject_Z (Z.of_nat (size (A ∪ B))))%Q.

(** The set of the lower-cased tags of a list. *)
Definition lowered (l : list string) : gset string := list_to_set (lower <$> l).

(** A list of tag strings as the Python list it is. *)
Definition tag_list (l : list string) : pyval := PList (AStr <$> l).

Definition equal_split : Weights :=
  {| w_title := 1 # 4; w_description := 1 # 4;
     w_content := 1 # 4; w_tags := 1 # 4 |}.

(** Sample data: an artifact with an integer id, a title and tags, and
    two stand-ins for the external comparator. *)
Definition sample_artifact (i : Z) (title : string) (tags : list string) : Artifact :=
  {| art_id := Some (Atom (AInt i));
     art_title := Some (Atom (AStr title));
     art_description := None;
     art_content := None;
     art_tags := Some (tag_list tags) |}.

Definition always_raises : pyval -> pyval -> result Q :=
  fun _ _ => Raise ValueError.

Definition always_100 : pyval -> pyval -> result Q :=
  fun _ _ => Ok 100%Q.

(** A candidate whose tag list holds a number instead of a string. *)
Definition malformed_artifact (i : Z) : Artifact :=
  {| art_id := Some (Atom (AInt i));
     art_title := Some (Atom (AStr "draft"));
     art_description := None;
     art_content := None;
     art_tags := Some (PList [AInt 3]) |}.


(** A result list ordered by descending score. *)
Definition descending (res : list (Artifact * Q)) : Prop :=
  StronglySorted (fun x y => (snd y <= snd x)%Q) res.

(** Integer ids in ascending order. *)
Definition id_lt (x y : Artifact) : Prop :=
  match art_id x, art_id y with
  | Some (Atom (AInt m)), Some (Atom (AInt n)) => m < n
  | _, _ => False
  end.

(** Entries with equal scores appear by ascending id. *)
Definition ties_ascending_by_id (res : list (Artifact * Q)) : Prop :=
  forall (i j : nat) (x y : Artifact * Q),
    (i < j)%nat -> res !! i = Some x -> res !! j = Some y ->
    (snd x == snd y)%Q -> id_lt (fst x) (fst y).

(** The ordering the specification asks for: descending scores, equal
    scores by ascending id. *)
Definition ordered_with_id_tie_break (res : list (Artifact * Q)) : Prop :=
  descending res /\ ties_ascending_by_id res.

(** The entries of a list whose score equals [q], in their order. *)
Definition with_score (q : Q) (l : list (Artifact * Q)) : list (Artifact * Q) :=
  List.filter (fun x => Qeq_bool (snd x) q) l.

(** Entries with equal scores appear in the order they have in [found]. *)
Definition ties_in_order_of (found res : list (Artifact * Q)) : Prop :=
  forall q : Q, with_score q res = with_score q found.

End Fuzzy.

(** ** db/database.py: the relationships table *)

Module Database.

(** A row of the [relationships] table. *)
Record Relationship : Type := {
  id : Z;
  artifact_id_1 : Z;
  artifact_id_2 : Z;
  relationship_type : string;
  fuzzy_score : Q;
  description : string;
  created_at : string
}.

(** The table and its AUTOINCREMENT counter (the largest row id ever
    used).  [create_connection] does not switch on foreign key
    enforcement, so the artifacts table plays no part. *)
Record DB : Type := {
  relationships : list Relationship;
  sqlite_sequence : Z
}.

Definition empty_db : DB := {| relationships := []; sqlite_sequence := 0 |}.

Record Cursor : Type := { rowcount : Z; lastrowid : Z }.

(** The constraint [UNIQUE (artifact_id_1, artifact_id_2)]. *)
Definition conflicts (a1 a2 : Z) (r : Relationship) : bool :=
  (artifact_id_1 r =? a1) && (artifact_id_2 r =? a2).

(** [INSERT OR IGNORE INTO relationships (...) VALUES (?, ?, ?, ?, ?, ?)]. *)
Definition insert_or_ignore (db : DB) (a1 a2 : Z) (rtype : string) (score : Q)
    (descr now : string) : DB * Cursor :=
  if existsb (conflicts a1 a2) (relationships db) then
    (db, {| rowcount := 0; lastrowid := 0 |})
  else
    let rid := sqlite_sequence db + 1 in
    ({| relationships :=
          relationships db ++
          [{| id := rid; artifact_id_1 := a1; artifact_id_2 := a2;
              relationship_type := rtype; fuzzy_score := score;
              description := descr; created_at := now |}];
        sqlite_sequence := rid |},
     {| rowcount := 1; lastrowid := rid |}).

(** [create_relationship].  [conn] tells whether [create_connection]
    returned a connection; [now] is [datetime.now().isoformat()]. *)
Definition create_relationship (conn : bool) (now : string) (db : DB)
    (artifact_id_1 artifact_id_2 : Z) (relationship_type : string)
    (fuzzy_score : Q) (description : string) : option Z * DB :=
  let '(artifact_id_1, artifact_id_2) :=
    if artifact_id_1 >? artifact_id_2 then (artifact_id_2, artifact_id_1)
    else (artifact_id_1, artifact_id_2) in
  if conn then
    let '(db', cursor) :=
      insert_or_ignore db artifact_id_1 artifact_id_2 relationship_type
                       fuzzy_score description now in
    (if rowcount cursor >? 0 then Some (lastrowid cursor) else None, db')
  else (None, db).

(** [delete_relationship]: [DELETE FROM relationships WHERE id = ?]. *)
Definition delete_relationship (conn : bool) (db : DB) (relationship_id : Z)
  : bool * DB :=
  if conn then
    let kept := List.filter (fun r => negb (id r =? relationship_id))
                            (relationships db) in
    let deleted := List.filter (fun r => id r =? relationship_id)
                               (relationships db) in
    (0 <? Z.of_nat (length deleted),
     {| relationships := kept; sqlite_sequence := sqlite_sequence db |})
  else (false, db).

(** The databases these two operations produce from the empty table. *)
Inductive reachable : DB -> Prop :=
  | reachable_empty : reachable empty_db
  | reachable_create conn now db a b rtype score descr :
      reachable db ->
      reachable (create_relationship conn now db a b rtype score descr).2
  | reachable_delete conn db rid :
      reachable db ->
      reachable (delete_relationship conn db rid).2.

(** A row joins the unordered pair [{a, b}]. *)
Definition joins (a b : Z) (r : Relationship) : Prop :=
  (artifact_id_1 r = a /\ artifact_id_2 r = b) \/
  (artifact_id_1 r = b /\ artifact_id_2 r = a).

(** Sample data: the table after a first call, with the larger id given
    first. *)
Definition first_synapse : DB :=
  (create_relationship true "2024-01-01T00:00:00" empty_db 2 1 "synapse" (3 # 4) "").2.

End Database.

(** ** viz/graph_forest.py: the graph assembler *)

Module GraphForest.

(** Attribute dictionaries of nodes and edges hold strings and numbers. *)
Inductive attr_value : Type :=
  | SVal (s : string)
  | NVal (q : Q).

Definition NODE_COLORS (type : string) : option string :=
  if bool_decide (type = "Project") then Some "skyblue"
  else if bool_decide (type = "Artifact") then Some "lightgreen"
  else if bool_decide (type = "Tag") then Some "orange"
  else if bool_decide (type = "Relationship") then Some "red"
  else None.

Definition EDGE_COLORS (type : string) : option string :=
  if bool_decide (type = "Parent-Child") then Some "gray"
  else if bool_decide (type = "Related") then Some "purple"
  else if bool_decide (type = "FuzzyLink") then Some "blue"
  else None.

(** The dictionaries built by [fetch_graph_data]. *)
Record ArtifactRow : Type := {
  a_id : Z;
  a_title : string;
  a_type : string;
  a_description : string
}.

Record RelationshipRow : Type := {
  source : Z;
  target : Z;
  r_type : string;
  r_score : Q
}.

(** [networkx.Graph]: the node dictionary and the adjacency dictionary
    of dictionaries, each edge stored under both of its endpoints. *)
Record Graph : Type := {
  _node : gmap Z (gmap string attr_value);
  _adj : gmap Z (gmap Z (gmap string attr_value))
}.

Definition empty_graph : Graph := {| _node := ∅; _adj := ∅ |}.

(** [n in G]. *)
Definition contains (G : Graph) (n : Z) : bool :=
  bool_decide (is_Some (_node G !! n)).

(** [dict.update]: the new entries win. *)
Definition update (d new : gmap string attr_value) : gmap string attr_value :=
  new ∪ d.

(** [Graph.add_node(n, **attr)]. *)
Definition add_node (G : Graph) (n : Z) (attr : gmap string attr_value) : Graph :=
  match _node G !! n with
  | None => {| _node := <[n := update ∅ attr]> (_node G);
               _adj := <[n := ∅]> (_adj G) |}
  | Some d => {| _node := <[n := update d attr]> (_node G);
                 _adj := _adj G |}
  end.

(** [self._adj[u]]; present for every node. *)
Definition neighbours (G : Graph) (u : Z) : gmap Z (gmap string attr_value) :=
  default ∅ (_adj G !! u).

(** [Graph.add_edge(u, v, **attr)]. *)
Definition add_edge (G : Graph) (u v : Z) (attr : gmap string attr_value) : Graph :=
  let G1 := if contains G u then G else add_node G u ∅ in
  let G2 := if contains G1 v then G1 else add_node G1 v ∅ in
  let datadict := update (default ∅ (neighbours G2 u !! v)) attr in
  let adj1 := <[u := <[v := datadict]> (neighbours G2 u)]> (_adj G2) in
  let G3 := {| _node := _node G2; _adj := adj1 |} in
  {| _node := _node G2;
     _adj := <[v := <[u := datadict]> (neighbours G3 v)]> adj1 |}.

Definition number_of_nodes (G : Graph) : nat := size (_node G).

(** [G.degree]: a self loop counts twice. *)
Definition degree_of (entry : Z * gmap Z (gmap string attr_value)) : nat :=
  size entry.2 + (if bool_decide (is_Some (entry.2 !! entry.1)) then 1 else 0).

(** [G.number_of_edges()]: half the sum of the degrees. *)
Definition number_of_edges (G : Graph) : nat :=
  (sum_list_with degree_of (map_to_list (_adj G)) / 2)%nat.

(** [G.number_of_edges(u, v)] on a simple graph. *)
Definition number_of_edges_between (G : Graph) (u v : Z) : nat :=
  if bool_decide (is_Some (neighbours G u !! v)) then 1 else 0.

(** [G.get_edge_data(u, v)]. *)
Definition get_edge_data (G : Graph) (u v : Z) : option (gmap string attr_value) :=
  _adj G !! u ≫= (.!! v).

Definition has_edge (G : Graph) (u v : Z) : Prop := is_Some (get_edge_data G u v).

Definition node_attrs (artifact : ArtifactRow) : gmap string attr_value :=
  <["title" := SVal (a_title artifact)]>
    (<["type" := SVal (a_type artifact)]>
       (<["description" := SVal (a_description artifact)]>
          (<["color" := SVal (default "lightgray" (NODE_COLORS (a_type artifact)))]> ∅))).

Definition edge_attrs (rel : RelationshipRow) : gmap string attr_value :=
  <["type" := SVal (r_type rel)]>
    (<["score" := NVal (r_score rel)]>
       (<["color" := SVal (default "black" (EDGE_COLORS (r_type rel)))]> ∅)).

(** The line printed for a skipped edge. *)
Inductive diagnostic : Type :=
  | SkippingEdge (source target : Z).

Definition add_artifact (G : Graph) (artifact : ArtifactRow) : Graph :=
  add_node G (a_id artifact) (node_attrs artifact).

Definition add_relationship (acc : Graph * list diagnostic) (rel : RelationshipRow)
  : Graph * list diagnostic :=
  let '(G, out) := acc in
  if contains G (source rel) && contains G (target rel) then
    (add_edge G (source rel) (target rel) (edge_attrs rel), out)
  else
    (G, out ++ [SkippingEdge (source rel) (target rel)]).

(** [build_artifact_graph]: the graph and the warnings printed. *)
Definition build_artifact_graph (artifacts : list ArtifactRow)
    (relationships : list RelationshipRow) : Graph * list diagnostic :=
  let G := foldl add_artifact empty_graph artifacts in
  foldl add_relationship (G, []) relationships.

(** *** Properties of the inputs, used to state the theorems *)

(** A relationship record over the unordered pair [{u, v}]. *)
Definition over_pair (u v : Z) (rel : RelationshipRow) : Prop :=
  (source rel = u /\ target rel = v) \/ (source rel = v /\ target rel = u).

#[global] Instance over_pair_dec (u v : Z) (rel : RelationshipRow) :
  Decision (over_pair u v rel).
Proof. unfold over_pair. apply _. Defined.

Definition ids_of (artifacts : list ArtifactRow) : list Z := a_id <$> artifacts.

(** Both endpoints of a record are among the ids. *)
Definition both_known (ids : list Z) (rel : RelationshipRow) : bool :=
  bool_decide (source rel ∈ ids) && bool_decide (target rel ∈ ids).

(** The warnings for the records with an unknown endpoint, in order. *)
Definition skipped (ids : list Z) (relationships : list RelationshipRow)
  : list diagnostic :=
  (fun rel => SkippingEdge (source rel) (target rel))
    <$> List.filter (fun rel => negb (both_known ids rel)) relationships.

(** The last record of the sequence that joins [u] and [v] and has both
    endpoints known. *)
Fixpoint last_record (ids : list Z) (u v : Z) (relationships : list RelationshipRow)
  : option RelationshipRow :=
  match relationships with
  | [] => None
  | rel :: rest =>
      match last_record ids u v rest with
      | Some later => Some later
      | None =>
          if both_known ids rel && bool_decide (over_pair u v rel)
          then Some rel else None
      end
  end.

(** The graphs met while the relationships are added: the nodes are the
    given ids and every edge carries the attributes of one record. *)
Definition wf (ids : list Z) (G : Graph) : Prop :=
  (forall n, contains G n = true <-> n ∈ ids)
  /\ (forall x y d, get_edge_data G x y = Some d -> exists rel, d = edge_attrs rel).

(** Sample data: three artifacts and a few relationship records. *)
Definition sample_row (i : Z) (title : string) : ArtifactRow :=
  {| a_id := i; a_title := title; a_type := "Artifact"; a_description := "" |}.

Definition three_artifacts : list ArtifactRow :=
  [sample_row 1 "one"; sample_row 2 "two"; sample_row 3 "three"].

Definition sample_rel (s t : Z) (type : string) (score : Q) : RelationshipRow :=
  {| source := s; target := t; r_type := type; r_score := score |}.

End GraphForest.

(** ** Further notions for the similarity engine *)

Module FuzzyExtra.
Import Fuzzy.



(** The entries of a result list with a score of at least [threshold]. *)
Definition at_least (threshold : Q) (l : list (Artifact * Q)) : list (Artifact * Q) :=
  List.filter (fun x => Qle_bool threshold (snd x)) l.

(** An attribute that is absent, [None], or an empty string or list. *)
Definition blank (field : option pyval) (default : pyval) : Prop :=
  truthy (getattr field default) = false.

(** Every element of a tag list is a string. *)
Definition all_strings (l : list atom) : bool :=
  forallb (fun a => match a with AStr _ => true | _ => false end) l.

(** A target object without an [id] attribute. *)
Definition target_without_id (title : string) (tags : list string) : Artifact :=
  {| art_id := None;
     art_title := Some (Atom (AStr title));
     art_description := None;
     art_content := None;
     art_tags := Some (tag_list tags) |}.

(** Sample data: equal weights, and the score they give two artifacts
    that share their only tag and have no text. *)
Definition quarter_organizer : FuzzyOrganizer := {| weights := equal_split |}.

Definition shared_tag_score : Q :=
  Eval vm_compute in
    match calculate_artifact_similarity always_raises quarter_organizer
            (sample_artifact 0 "" ["x"]) (sample_artifact 1 "" ["x"]) with
    | Ok s => s
    | Raise _ => 0%Q
    end.

End FuzzyExtra.

(** ** Further notions for the graph assembler *)

Module GraphExtra.
Import GraphForest.

(** The last artifact of the sequence with the id [i]. *)
Fixpoint last_with_id (i : Z) (artifacts : list ArtifactRow) : option ArtifactRow :=
  match artifacts with
  | [] => None
  | artifact :: rest =>
      match last_with_id i rest with
      | Some later => Some later
      | None => if bool_decide (a_id artifact = i) then Some artifact else None
      end
  end.

(** [G.nodes[n]]: the attribute dictionary of a node. *)
Definition node_data (G : Graph) (n : Z) : option (gmap string attr_value) :=
  _node G !! n.

End GraphExtra.

(** ** db/database.py: queries, projects, tags and tag links *)

Module Tables.
Import Database.

(** [ORDER BY]: rows are put in order by a comparison of one column.
    SQL leaves the order of rows with equal keys open; here they keep
    the order of the table, and no theorem depends on it. *)
Fixpoint insert_by {A : Type} (before : A -> A -> bool) (x : A) (l : list A)
  : list A :=
  match l with
  | [] => [x]
  | y :: l' => if before x y then x :: y :: l' else y :: insert_by before x l'
  end.

Definition order_by {A : Type} (before : A -> A -> bool) (l : list A) : list A :=
  foldr (insert_by before) [] l.

(** *** Relationships *)

(** [WHERE artifact_id_1 = ? OR artifact_id_2 = ?]. *)
Definition involves (artifact_id : Z) (r : Relationship) : bool :=
  (artifact_id_1 r =? artifact_id) || (artifact_id_2 r =? artifact_id).

(** [ORDER BY created_at DESC] on text. *)
Definition newer_first (r1 r2 : Relationship) : bool :=
  String.leb (created_at r2) (created_at r1).

Definition get_relationships_for_artifact (conn : bool) (db : DB) (artifact_id : Z)
  : list Relationship :=
  if conn then
    order_by newer_first (List.filter (involves artifact_id) (relationships db))
  else [].

(** *** Projects *)

Record Project : Type := {
  p_id : Z;
  p_title : string;
  p_description : string;
  p_category : string;
  p_created_at : string;
  p_updated_at : string
}.

Record Projects : Type := {
  project_rows : list Project;
  project_sequence : Z
}.

Definition no_projects : Projects := {| project_rows := []; project_sequence := 0 |}.

(** [create_project]: the title is UNIQUE; a second project of the same
    title raises [sqlite3.IntegrityError], which is caught. *)
Definition create_project (conn : bool) (now : string) (t : Projects)
    (title description category : string) : option Z * Projects :=
  if conn then
    if existsb (fun r => bool_decide (p_title r = title)) (project_rows t) then
      (None, t)
    else
      let pid := project_sequence t + 1 in
      (Some pid,
       {| project_rows :=
            project_rows t ++
            [{| p_id := pid; p_title := title; p_description := description;
                p_category := category; p_created_at := now;
                p_updated_at := now |}];
          project_sequence := pid |})
  else (None, t).

(** [get_project]: [fetchone] of [SELECT * FROM projects WHERE id = ?]. *)
Definition get_project (conn : bool) (t : Projects) (project_id : Z)
  : option Project :=
  if conn then List.find (fun r => p_id r =? project_id) (project_rows t)
  else None.

(** The [SET] clause built from the arguments that are not [None],
    followed by [updated_at = ?]. *)
Definition set_fields (now : string) (title description category : option string)
    (r : Project) : Project :=
  {| p_id := p_id r;
     p_title := default (p_title r) title;
     p_description := default (p_description r) description;
     p_category := default (p_category r) category;
     p_created_at := p_created_at r;
     p_updated_at := now |}.

(** The UPDATE would give the row a title another row has. *)
Definition title_taken (t : Projects) (project_id : Z) (title : option string)
  : bool :=
  match title with
  | Some new_title =>
      existsb (fun r => negb (p_id r =? project_id)
                        && bool_decide (p_title r = new_title))
              (project_rows t)
  | None => false
  end.

Definition update_project (conn : bool) (now : string) (t : Projects)
    (project_id : Z) (title description category : option string)
  : bool * Projects :=
  if conn then
    let updates :=
      bool_decide (is_Some title) || bool_decide (is_Some description)
      || bool_decide (is_Some category) in
    if negb updates then (false, t)
    else if negb (existsb (fun r => p_id r =? project_id) (project_rows t))
    then (false, t)
    else if title_taken t project_id title then (false, t)
    else
      (true,
       {| project_rows :=
            (fun r => if p_id r =? project_id
                      then set_fields now title description category r else r)
              <$> project_rows t;
          project_sequence := project_sequence t |})
  else (false, t).

Definition delete_project (conn : bool) (t : Projects) (project_id : Z)
  : bool * Projects :=
  if conn then
    (existsb (fun r => p_id r =? project_id) (project_rows t),
     {| project_rows :=
          List.filter (fun r => negb (p_id r =? project_id)) (project_rows t);
        project_sequence := project_sequence t |})
  else (false, t).

(** The project tables these operations produce from the empty one. *)
Inductive reachable_projects : Projects -> Prop :=
  | reachable_no_projects : reachable_projects no_projects
  | reachable_create_project conn now t title description category :
      reachable_projects t ->
      reachable_projects (create_project conn now t title description category).2
  | reachable_update_project conn now t pid title description category :
      reachable_projects t ->
      reachable_projects
        (update_project conn now t pid title description category).2
  | reachable_delete_project conn t pid :
      reachable_projects t ->
      reachable_projects (delete_project conn t pid).2.

(** *** Tags *)

Record Tag : Type := { tag_id : Z; tag_name : string }.

Record Tags : Type := {
  tag_rows : list Tag;
  tag_sequence : Z
}.

Definition no_tags : Tags := {| tag_rows := []; tag_sequence := 0 |}.

(** [get_tag_by_name]: [WHERE name = ?]; with [None] as the name the
    comparison is with NULL and matches no row. *)
Definition get_tag_by_name (conn : bool) (t : Tags) (name : option string)
  : option Tag :=
  if conn then
    match name with
    | Some n => List.find (fun r => bool_decide (tag_name r = n)) (tag_rows t)
    | None => None
    end
  else None.

(** [row['id']] on the result of [fetchone]. *)
Definition subscript_id (row : option Tag) : result (option Z) :=
  match row with
  | Some r => Ok (Some (tag_id r))
  | None => Raise TypeError
  end.

(** [create_tag].  The name is NOT NULL and UNIQUE; on
    [sqlite3.IntegrityError] the handler looks the tag up through a
    connection of its own ([conn_lookup]) and subscripts the row. *)
Definition create_tag (conn conn_lookup : bool) (t : Tags) (name : option string)
  : result (option Z) * Tags :=
  if conn then
    match name with
    | None => (subscript_id (get_tag_by_name conn_lookup t name), t)
    | Some n =>
        if existsb (fun r => bool_decide (tag_name r = n)) (tag_rows t) then
          (subscript_id (get_tag_by_name conn_lookup t name), t)
        else
          let tid := tag_sequence t + 1 in
          (Ok (Some tid),
           {| tag_rows := tag_rows t ++ [{| tag_id := tid; tag_name := n |}];
              tag_sequence := tid |})
    end
  else (Ok None, t).

Definition delete_tag (conn : bool) (t : Tags) (tag_id' : Z) : bool * Tags :=
  if conn then
    (existsb (fun r => tag_id r =? tag_id') (tag_rows t),
     {| tag_rows := List.filter (fun r => negb (tag_id r =? tag_id')) (tag_rows t);
        tag_sequence := tag_sequence t |})
  else (false, t).

Inductive reachable_tags : Tags -> Prop :=
  | reachable_no_tags : reachable_tags no_tags
  | reachable_create_tag conn conn_lookup t name :
      reachable_tags t -> reachable_tags (create_tag conn conn_lookup t name).2
  | reachable_delete_tag conn t tid :
      reachable_tags t -> reachable_tags (delete_tag conn t tid).2.

(** *** Links between artifacts and tags *)

(** The rows of [artifact_tags]: (artifact_id, tag_id), the pair being
    the primary key. *)
Definition same_link (artifact_id tag_id' : Z) (l : Z * Z) : bool :=
  (l.1 =? artifact_id) && (l.2 =? tag_id').

Definition add_tag_to_artifact (conn : bool) (links : list (Z * Z))
    (artifact_id tag_id' : Z) : bool * list (Z * Z) :=
  if conn then
    if existsb (same_link artifact_id tag_id') links then (false, links)
    else (true, links ++ [(artifact_id, tag_id')])
  else (false, links).

Definition remove_tag_from_artifact (conn : bool) (links : list (Z * Z))
    (artifact_id tag_id' : Z) : bool * list (Z * Z) :=
  if conn then
    (existsb (same_link artifact_id tag_id') links,
     List.filter (fun l => negb (same_link artifact_id tag_id' l)) links)
  else (false, links).

(** [ORDER BY t.name ASC]. *)
Definition by_name (t1 t2 : Tag) : bool := String.leb (tag_name t1) (tag_name t2).

(** [get_tags_for_artifact]: the tags joined with the links of the
    artifact, one row for each link. *)
Definition get_tags_for_artifact (conn : bool) (t : Tags) (links : list (Z * Z))
    (artifact_id : Z) : list Tag :=
  if conn then
    order_by by_name
      (flat_map (fun r => (fun _ => r)
                            <$> List.filter (same_link artifact_id (tag_id r)) links)
                (tag_rows t))
  else [].

(** Sample data. *)
Definition two_tags : Tags :=
  (create_tag true true (create_tag true true no_tags (Some "UI/UX")).2
              (Some "Concept")).2.

Definition one_project : Projects :=
  (create_project true "2024-01-01T00:00:00" no_projects
                  "My First Project" "This is a test project." "creative").2.

End Tables.

(** * Theorems *)

(** ** The similarity engine *)

Module FuzzyProofs.
Import Fuzzy.

Lemma truediv_nonzero (x y : Q) :
  ~ (y == 0)%Q -> truediv x y = Ok (x / y)%Q.
Proof.
  intros Hy. unfold truediv.
  destruct (Qeq_bool y 0) eqn:E; [|reflexivity].
  apply Qeq_bool_iff in E. contradiction.
Qed.









(** C6: two artifacts with equal ids score 0, whatever the comparator
    would do and whatever the other attributes hold: no component
    similarity is computed. *)
Theorem same_id_scores_zero
    (partial_ratio : pyval -> pyval -> result Q) (self : FuzzyOrganizer)
    (artifact1 artifact2 : Artifact) (id1 id2 : pyval) :
  art_id artifact1 = Some id1 ->
  art_id artifact2 = Some id2 ->
  py_eq id1 id2 = true ->
  calculate_artifact_similarity partial_ratio self artifact1 artifact2 = Ok 0%Q.
Proof.
  intros H1 H2 Heq. unfold calculate_artifact_similarity.
  rewrite H1, H2. simpl. rewrite Heq. reflexivity.
Qed.

Lemma same_id_scores_zero_sample :
  calculate_artifact_similarity always_raises default_organizer
    {| art_id := Some (Atom (AInt 7)); art_title := Some (Atom (AStr "a"));
       art_description := None; art_content := None;
       art_tags := Some (PList [AInt 3]) |}
    (sample_artifact 7 "b" ["x"]) = Ok 0%Q.
Proof.
  apply (same_id_scores_zero always_raises default_organizer _ _
           (Atom (AInt 7)) (Atom (AInt 7))); reflexivity.
Defined.

Lemma inject_nat_nonzero (n : nat) :
  n <> 0%nat -> ~ (inject_Z (Z.of_nat n) == 0)%Q.
Proof. unfold Qeq. simpl. lia. Qed.




Lemma lower_set_of_strings (l : list string) :
  lower_set_of (AStr <$> l) = Ok (lowered l).
Proof.
  induction l as [|t l IH]; [reflexivity|].
  change (lower_set_of (AStr <$> t :: l))
    with (bind (lower_set_of (AStr <$> l))
               (fun rest => Ok ({[ lower t ]} ∪ rest))).
  rewrite IH. reflexivity.
Qed.

Lemma lowered_cons_nonempty (t : string) (l : list string) :
  lowered (t :: l) <> ∅.
Proof. unfold lowered. simpl. set_solver. Qed.


(** *** Connection discovery *)

Section Discovery.

Variable partial_ratio : pyval -> pyval -> result Q.
Variable self : FuzzyOrganizer.
Variable target_artifact : Artifact.
Variable threshold : Q.

Local Abbreviation scan_all := (scan partial_ratio self target_artifact threshold).
Local Abbreviation find_all :=
  (fun l => find_potential_connections partial_ratio self target_artifact l threshold).

Lemma find_is_sorted_scan (all_artifacts : list (option Artifact)) :
  (find_all all_artifacts).1 = sort_reverse (scan_all all_artifacts).1.
Proof.
  unfold find_potential_connections.
  destruct all_artifacts as [|c l]; [reflexivity|].
  destruct (scan_all (c :: l)) as [found logged]. reflexivity.
Qed.

Lemma find_log (all_artifacts : list (option Artifact)) :
  all_artifacts <> [] ->
  (find_all all_artifacts).2
  = InfoFinding (getattr (art_id target_artifact) not_available) threshold
      :: (scan_all all_artifacts).2
      ++ [InfoFound (length (sort_reverse (scan_all all_artifacts).1))].
Proof.
  unfold find_potential_connections.
  destruct all_artifacts as [|c l]; [done|]. intros _.
  destruct (scan_all (c :: l)) as [found logged]. reflexivity.
Qed.

Lemma scan_app (l1 l2 : list (option Artifact)) :
  scan_all (l1 ++ l2)
  = ((scan_all l1).1 ++ (scan_all l2).1, (scan_all l1).2 ++ (scan_all l2).2).
Proof.
  induction l1 as [|c l1 IH]; simpl.
  - by destruct (scan_all l2).
  - rewrite IH.
    destruct (scan_one partial_ratio self target_artifact threshold c)
      as [found logged].
    destruct (scan_all l1) as [found1 logged1]. simpl.
    by rewrite !app_assoc.
Qed.

Lemma scan_found_in_order (all_artifacts : list (option Artifact)) :
  sublist (Some <$> (fst <$> (scan_all all_artifacts).1)) all_artifacts.
Proof.
  induction all_artifacts as [|c l IH]; simpl; [constructor|].
  destruct (scan_all l) as [found' logged'].
  unfold scan_one, is_candidate.
  destruct c as [a|]; [|by apply sublist_cons].
  destruct (negb _ && negb _); [|by apply sublist_cons].
  destruct (calculate_artifact_similarity _ _ _ _) as [score|e];
    [|by apply sublist_cons].
  destruct (Qle_bool threshold score); [|by apply sublist_cons].
  simpl. by apply sublist_skip.
Qed.

End Discovery.

Lemma key_lt_spec (x y : Artifact * Q) :
  key_lt x y = true <-> (snd x < snd y)%Q.
Proof.
  unfold key_lt. rewrite negb_true_iff.
  destruct (Qle_bool (snd y) (snd x)) eqn:E.
  - apply Qle_bool_iff in E. split; [discriminate|]. intros H.
    exfalso. by eapply Qlt_not_le.
  - split; [intros _|reflexivity].
    apply Qnot_le_lt. intros H. apply Qle_bool_iff in H. congruence.
Qed.

Lemma insert_reverse_perm (x : Artifact * Q) (l : list (Artifact * Q)) :
  insert_reverse x l ≡ₚ x :: l.
Proof.
  induction l as [|y l IH]; simpl; [reflexivity|].
  destruct (key_lt x y); [|reflexivity].
  rewrite IH. apply Permutation_swap.
Qed.

Lemma sort_reverse_perm (l : list (Artifact * Q)) : sort_reverse l ≡ₚ l.
Proof.
  induction l as [|x l IH]; simpl; [reflexivity|].
  by rewrite insert_reverse_perm, IH.
Qed.

Lemma insert_reverse_descending (x : Artifact * Q) (l : list (Artifact * Q)) :
  descending l -> descending (insert_reverse x l).
Proof.
  unfold descending. induction 1 as [|y l Hl IH Hy]; simpl.
  - repeat constructor.
  - destruct (key_lt x y) eqn:E.
    + apply key_lt_spec in E. constructor; [exact IH|].
      rewrite insert_reverse_perm. constructor; [|exact Hy].
      by apply Qlt_le_weak.
    + assert (snd y <= snd x)%Q as Hyx.
      { unfold key_lt in E. apply negb_false_iff in E.
        by apply Qle_bool_iff in E. }
      constructor; [by constructor|].
      constructor; [exact Hyx|].
      eapply Forall_impl; [exact Hy|]. intros z Hz. simpl in Hz.
      by eapply Qle_trans.
Qed.

Lemma sort_reverse_descending (l : list (Artifact * Q)) :
  descending (sort_reverse l).
Proof.
  induction l as [|x l IH]; simpl; [constructor|].
  by apply insert_reverse_descending.
Qed.

(** The sort is stable: entries passed over have a strictly larger
    score, so the entries of one score keep their order. *)
Lemma with_score_insert_reverse (q : Q) (x : Artifact * Q) (l : list (Artifact * Q)) :
  with_score q (insert_reverse x l) = with_score q (x :: l).
Proof.
  induction l as [|y l IH]; [reflexivity|].
  simpl. destruct (key_lt x y) eqn:E; [|reflexivity].
  apply key_lt_spec in E. simpl. simpl in IH. rewrite IH.
  destruct (Qeq_bool (snd y) q) eqn:Ey; [|reflexivity].
  destruct (Qeq_bool (snd x) q) eqn:Ex; [|reflexivity].
  apply Qeq_bool_iff in Ex, Ey. exfalso.
  apply (Qlt_irrefl q). by rewrite <- Ex at 1; rewrite <- Ey.
Qed.

Lemma with_score_sort_reverse (q : Q) (l : list (Artifact * Q)) :
  with_score q (sort_reverse l) = with_score q l.
Proof.
  induction l as [|x l IH]; [reflexivity|].
  simpl. rewrite with_score_insert_reverse. simpl. by rewrite IH.
Qed.

(** C1, as the code has it: the connections come back in descending
    order of score, and those with equal scores keep the order in which
    the scan found them, which is the order of the candidate sequence.
    The list holds exactly what the scan found. *)
Theorem connections_descending_and_stable
    (partial_ratio : pyval -> pyval -> result Q) (self : FuzzyOrganizer)
    (target_artifact : Artifact) (all_artifacts : list (option Artifact))
    (threshold : Q) :
  let found := (scan partial_ratio self target_artifact threshold all_artifacts).1 in
  let res := (find_potential_connections partial_ratio self target_artifact
                                          all_artifacts threshold).1 in
  descending res
  /\ ties_in_order_of found res
  /\ res ≡ₚ found
  /\ sublist (Some <$> (fst <$> found)) all_artifacts.
Proof.
  cbv zeta. rewrite find_is_sorted_scan.
  split; [apply sort_reverse_descending|].
  split; [intros q; apply with_score_sort_reverse|].
  split; [apply sort_reverse_perm|apply scan_found_in_order].
Qed.

(** C1, as the specification has it, fails: two candidates with equal
    scores, listed with the larger id first, come back in that order. *)
Lemma id_tie_break_fails :
  ~ ordered_with_id_tie_break
      (find_potential_connections always_raises default_organizer
         (sample_artifact 0 "" ["x"])
         [Some (sample_artifact 2 "" ["x"]); Some (sample_artifact 1 "" ["x"])]
         20%Q).1.
Proof.
  intros [_ Hties].
  specialize (Hties 0%nat 1%nat _ _ ltac:(lia) eq_refl eq_refl).
  vm_compute in Hties. specialize (Hties eq_refl). discriminate.
Qed.

(** C8: a candidate whose scoring raises is dropped and the error is
    logged; the candidates before and after it are scanned as if it were
    not there, and the connections returned are those of the sequence
    without it. *)
Theorem failing_candidate_is_skipped
    (partial_ratio : pyval -> pyval -> result Q) (self : FuzzyOrganizer)
    (target_artifact : Artifact) (threshold : Q)
    (before after : list (option Artifact)) (failing : option Artifact)
    (a : Artifact) (e : exn) :
  is_candidate target_artifact failing = Some a ->
  calculate_artifact_similarity partial_ratio self target_artifact a = Raise e ->
  let scan_all := scan partial_ratio self target_artifact threshold in
  let find_all := fun l =>
    find_potential_connections partial_ratio self target_artifact l threshold in
  let logged := ErrorSimilarity (getattr (art_id target_artifact) not_available)
                                (getattr (art_id a) not_available) e in
  scan_all (before ++ failing :: after)
  = ((scan_all before).1 ++ (scan_all after).1,
     (scan_all before).2 ++ logged :: (scan_all after).2)
  /\ (find_all (before ++ failing :: after)).1 = (find_all (before ++ after)).1
  /\ logged ∈ (find_all (before ++ failing :: after)).2.
Proof.
  intros Hcand Hraise scan_all find_all logged.
  assert (scan_all (before ++ failing :: after)
          = ((scan_all before).1 ++ (scan_all after).1,
             (scan_all before).2 ++ logged :: (scan_all after).2)) as Hscan.
  { unfold scan_all. rewrite scan_app. simpl.
    unfold scan_one. rewrite Hcand, Hraise.
    by destruct (scan partial_ratio self target_artifact threshold after). }
  split; [exact Hscan|]. split.
  - unfold find_all. rewrite !find_is_sorted_scan.
    fold scan_all. rewrite Hscan. unfold scan_all. by rewrite scan_app.
  - unfold find_all. rewrite find_log by (by destruct before).
    fold scan_all. rewrite Hscan. simpl.
    apply elem_of_cons. right. apply elem_of_app. left.
    apply elem_of_app. right. apply elem_of_cons. by left.
Qed.

Lemma failing_candidate_is_skipped_sample :
  (find_potential_connections always_100 default_organizer
     (sample_artifact 0 "draft" ["x"])
     [Some (sample_artifact 1 "draft one" ["x"]);
      Some (malformed_artifact 2);
      Some (sample_artifact 3 "draft three" ["x"; "y"])] 20%Q).1
  = (find_potential_connections always_100 default_organizer
       (sample_artifact 0 "draft" ["x"])
       [Some (sample_artifact 1 "draft one" ["x"]);
        Some (sample_artifact 3 "draft three" ["x"; "y"])] 20%Q).1.
Proof.
  apply (failing_candidate_is_skipped always_100 default_organizer
           (sample_artifact 0 "draft" ["x"]) 20%Q
           [Some (sample_artifact 1 "draft one" ["x"])]
           [Some (sample_artifact 3 "draft three" ["x"; "y"])]
           (Some (malformed_artifact 2)) (malformed_artifact 2) AttributeError);
    reflexivity.
Defined.

End FuzzyProofs.

(** ** The relationships table *)

Module DatabaseProofs.
Import Database.

Lemma conflicts_spec (a1 a2 : Z) (r : Relationship) :
  conflicts a1 a2 r = true <-> artifact_id_1 r = a1 /\ artifact_id_2 r = a2.
Proof. unfold conflicts. rewrite andb_true_iff, !Z.eqb_eq. tauto. Qed.

Lemma no_conflict_spec (a1 a2 : Z) (rows : list Relationship) :
  existsb (conflicts a1 a2) rows = false <->
  forall r, r ∈ rows -> ~ (artifact_id_1 r = a1 /\ artifact_id_2 r = a2).
Proof.
  split.
  - intros Hex r Hr Hc.
    assert (existsb (conflicts a1 a2) rows = true) as Ht; [|congruence].
    apply existsb_exists. exists r.
    split; [by apply list_elem_of_In|by apply conflicts_spec].
  - intros Hall. destruct (existsb (conflicts a1 a2) rows) eqn:E; [|reflexivity].
    apply existsb_exists in E as (r & Hr & Hc).
    exfalso. apply (Hall r); [by apply list_elem_of_In|by apply conflicts_spec].
Qed.

(** The ids as [create_relationship] orders them before the insert. *)
Lemma ordered_ids (a b : Z) :
  (if a >? b then (b, a) else (a, b)) = (Z.min a b, Z.max a b).
Proof. destruct (Z.gtb_spec a b); f_equal; lia. Qed.

(** Every row of a reachable table has its smaller id first (the two
    ids may be equal). *)
Lemma reachable_rows_ordered (db : DB) :
  reachable db ->
  Forall (fun r => artifact_id_1 r <= artifact_id_2 r) (relationships db).
Proof.
  induction 1 as [|conn now db a b rtype score descr _ IH|conn db rid _ IH].
  - constructor.
  - unfold create_relationship. rewrite ordered_ids.
    destruct conn; [|exact IH].
    unfold insert_or_ignore.
    destruct (existsb _ _); simpl; [exact IH|].
    apply Forall_app. split; [exact IH|].
    constructor; [simpl; lia|constructor].
  - unfold delete_relationship. destruct conn; [|exact IH].
    simpl. rewrite Forall_forall in *. intros r Hr.
    apply IH. apply list_elem_of_In. apply list_elem_of_In in Hr.
    apply filter_In in Hr. tauto.
Qed.





(** C2 fails on the code: with the same id given twice the swap does
    nothing, no check rejects the pair, and a row whose two artifact ids
    are equal is stored. *)
Theorem create_relationship_stores_self_pair
    (now : string) (a : Z) (rtype : string) (score : Q) (descr : string) :
  create_relationship true now empty_db a a rtype score descr
  = (Some 1,
     {| relationships :=
          [{| id := 1; artifact_id_1 := a; artifact_id_2 := a;
              relationship_type := rtype; fuzzy_score := score;
              description := descr; created_at := now |}];
        sqlite_sequence := 1 |}).
Proof.
  unfold create_relationship. rewrite Z.gtb_ltb, Z.ltb_irrefl. reflexivity.
Qed.

End DatabaseProofs.

(** ** The graph assembler *)

Module GraphProofs.
Import GraphForest.

Lemma contains_spec (G : Graph) (n : Z) :
  contains G n = true <-> n ∈ dom (_node G).
Proof.
  unfold contains. rewrite bool_decide_eq_true. by rewrite elem_of_dom.
Qed.

Lemma add_node_nodes (G : Graph) (n : Z) (attr : gmap string attr_value) :
  dom (_node (add_node G n attr)) = {[ n ]} ∪ dom (_node G).
Proof.
  unfold add_node. destruct (_node G !! n); simpl; apply dom_insert_L.
Qed.

Lemma add_artifacts_nodes (artifacts : list ArtifactRow) (G : Graph) :
  dom (_node (foldl add_artifact G artifacts))
  = dom (_node G) ∪ list_to_set (a_id <$> artifacts).
Proof.
  revert G. induction artifacts as [|a l IH]; intros G; simpl.
  - set_solver.
  - rewrite IH. unfold add_artifact. rewrite add_node_nodes. set_solver.
Qed.

(** Adding nodes to a graph without edges leaves it without edges. *)
Lemma add_node_no_edges (G : Graph) (n : Z) (attr : gmap string attr_value) :
  (forall x y, get_edge_data G x y = None) ->
  forall x y, get_edge_data (add_node G n attr) x y = None.
Proof.
  intros Hno x y. specialize (Hno x y). unfold get_edge_data, add_node in *.
  destruct (_node G !! n); simpl; [exact Hno|].
  destruct (decide (x = n)) as [->|Hne].
  - by rewrite lookup_insert_eq.
  - by rewrite lookup_insert_ne.
Qed.

Lemma add_artifacts_no_edges (artifacts : list ArtifactRow) (G : Graph) :
  (forall x y, get_edge_data G x y = None) ->
  forall x y, get_edge_data (foldl add_artifact G artifacts) x y = None.
Proof.
  revert G. induction artifacts as [|a l IH]; intros G Hno; simpl; [exact Hno|].
  apply IH. by apply add_node_no_edges.
Qed.

(** What [add_edge] does to the edge data, between nodes of the graph. *)
Lemma get_edge_data_add_edge (G : Graph) (u v : Z) (attr : gmap string attr_value)
    (x y : Z) :
  contains G u = true -> contains G v = true ->
  get_edge_data (add_edge G u v attr) x y
  = if bool_decide ((x = u /\ y = v) \/ (x = v /\ y = u))
    then Some (update (default ∅ (get_edge_data G u v)) attr)
    else get_edge_data G x y.
Proof.
  intros Hu Hv. unfold add_edge. rewrite Hu, Hv.
  unfold get_edge_data, neighbours. simpl.
  destruct (_adj G !! u) as [nu|] eqn:Eu; simpl;
  destruct (decide (x = u)) as [Hxu|Hxu];
  destruct (decide (x = v)) as [Hxv|Hxv];
  destruct (decide (y = u)) as [Hyu|Hyu];
  destruct (decide (y = v)) as [Hyv|Hyv];
  case_bool_decide; simplify_map_eq; try done; try naive_solver.
  all: by destruct (_adj G !! v).
Qed.

Lemma add_edge_nodes (G : Graph) (u v : Z) (attr : gmap string attr_value) :
  contains G u = true -> contains G v = true ->
  _node (add_edge G u v attr) = _node G.
Proof. intros Hu Hv. unfold add_edge. by rewrite Hu, Hv. Qed.

Lemma no_edges_count (G : Graph) :
  (forall x y, get_edge_data G x y = None) -> number_of_edges G = 0%nat.
Proof.
  intros Hno. unfold number_of_edges.
  assert (sum_list_with degree_of (map_to_list (_adj G)) = 0%nat) as ->;
    [|reflexivity].
  assert (Forall (fun entry => degree_of entry = 0%nat) (map_to_list (_adj G)))
    as Hall.
  { apply Forall_forall. intros [k nb] Hin.
    apply elem_of_map_to_list in Hin.
    assert (nb = ∅) as ->.
    { apply map_empty. intros y. specialize (Hno k y).
      unfold get_edge_data in Hno. by rewrite Hin in Hno. }
    unfold degree_of. simpl. rewrite lookup_empty.
    by rewrite bool_decide_eq_false_2 by (by intros [? ?]). }
  induction Hall as [|entry l Hentry _ IH]; simpl; [reflexivity|].
  by rewrite Hentry, IH.
Qed.

(** A later record over the same pair replaces all three attributes. *)
Lemma edge_attrs_overwrite (rel earlier : RelationshipRow) :
  update (edge_attrs earlier) (edge_attrs rel) = edge_attrs rel.
Proof.
  unfold update, edge_attrs. apply map_eq. intros k.
  rewrite lookup_union.
  destruct (decide (k = "type")) as [->|?]; [by simplify_map_eq|].
  destruct (decide (k = "score")) as [->|?]; [by simplify_map_eq|].
  destruct (decide (k = "color")) as [->|?]; [by simplify_map_eq|].
  by simplify_map_eq.
Qed.

Lemma edge_attrs_fresh (rel : RelationshipRow) :
  update ∅ (edge_attrs rel) = edge_attrs rel.
Proof. unfold update. apply (right_id ∅ (∪)). Qed.

Lemma both_known_contains (ids : list Z) (G : Graph) (rel : RelationshipRow) :
  wf ids G ->
  contains G (source rel) && contains G (target rel) = both_known ids rel.
Proof.
  intros [Hn _]. unfold both_known.
  f_equal; apply eq_true_iff_eq; rewrite Hn; by rewrite bool_decide_eq_true.
Qed.

Lemma add_relationship_edge_data (ids : list Z) (G : Graph) (out : list diagnostic)
    (rel : RelationshipRow) (x y : Z) :
  wf ids G ->
  get_edge_data (add_relationship (G, out) rel).1 x y
  = if both_known ids rel && bool_decide (over_pair x y rel)
    then Some (edge_attrs rel) else get_edge_data G x y.
Proof.
  intros Hwf. unfold add_relationship.
  rewrite (both_known_contains ids) by assumption.
  destruct (both_known ids rel) eqn:Ek; simpl; [|reflexivity].
  rewrite <- (both_known_contains ids G) in Ek by assumption.
  apply andb_true_iff in Ek as [Hs Ht].
  rewrite get_edge_data_add_edge by assumption.
  unfold over_pair.
  destruct (bool_decide ((x = source rel /\ y = target rel)
                         \/ (x = target rel /\ y = source rel))) eqn:E1.
  - apply bool_decide_eq_true in E1.
    rewrite bool_decide_eq_true_2 by naive_solver.
    f_equal. destruct (get_edge_data G (source rel) (target rel)) as [d|] eqn:Ed.
    + destruct Hwf as [_ He]. destruct (He _ _ _ Ed) as [earlier ->].
      apply edge_attrs_overwrite.
    + apply edge_attrs_fresh.
  - apply bool_decide_eq_false in E1.
    by rewrite bool_decide_eq_false_2 by naive_solver.
Qed.

Lemma add_relationship_wf (ids : list Z) (G : Graph) (out : list diagnostic)
    (rel : RelationshipRow) :
  wf ids G -> wf ids (add_relationship (G, out) rel).1.
Proof.
  intros Hwf. split.
  - intros n. destruct Hwf as [Hn _]. rewrite <- Hn.
    unfold add_relationship.
    destruct (contains G (source rel) && contains G (target rel)) eqn:Ek;
      simpl; [|reflexivity].
    apply andb_true_iff in Ek as [Hs Ht].
    unfold contains. by rewrite add_edge_nodes.
  - intros x y d. rewrite (add_relationship_edge_data ids) by assumption.
    destruct (both_known ids rel && bool_decide (over_pair x y rel)).
    + intros [= <-]. by exists rel.
    + destruct Hwf as [_ He]. apply He.
Qed.

Lemma add_relationship_out (ids : list Z) (G : Graph) (out : list diagnostic)
    (rel : RelationshipRow) :
  wf ids G ->
  (add_relationship (G, out) rel).2 = out ++ skipped ids [rel].
Proof.
  intros Hwf. unfold add_relationship, skipped.
  rewrite (both_known_contains ids) by assumption. simpl.
  destruct (both_known ids rel); simpl; [by rewrite app_nil_r|reflexivity].
Qed.

Lemma skipped_cons (ids : list Z) (rel : RelationshipRow)
    (rest : list RelationshipRow) :
  skipped ids (rel :: rest) = skipped ids [rel] ++ skipped ids rest.
Proof. unfold skipped. simpl. by destruct (negb (both_known ids rel)). Qed.

(** The loop over the relationships, from any graph met on the way. *)
Lemma add_relationships_spec (ids : list Z) (relationships : list RelationshipRow)
    (G : Graph) (out : list diagnostic) :
  wf ids G ->
  let final := foldl add_relationship (G, out) relationships in
  wf ids final.1
  /\ final.2 = out ++ skipped ids relationships
  /\ forall x y, get_edge_data final.1 x y
                 = match last_record ids x y relationships with
                   | Some rel => Some (edge_attrs rel)
                   | None => get_edge_data G x y
                   end.
Proof.
  revert G out. induction relationships as [|rel rest IH]; intros G out Hwf.
  - simpl. split; [exact Hwf|]. split; [by rewrite app_nil_r|done].
  - cbn [foldl last_record].
    destruct (add_relationship (G, out) rel) as [G1 out1] eqn:Estep.
    pose proof (add_relationship_wf ids G out rel Hwf) as Hwf1.
    pose proof (add_relationship_out ids G out rel Hwf) as Hout1.
    pose proof (fun x y => add_relationship_edge_data ids G out rel x y Hwf) as Hdata1.
    rewrite Estep in Hwf1, Hout1, Hdata1. simpl in Hwf1, Hout1, Hdata1.
    destruct (IH G1 out1 Hwf1) as (Hwf' & Hout' & Hdata').
    split; [exact Hwf'|]. split.
    + rewrite Hout', Hout1, (skipped_cons ids rel rest). symmetry. apply app_assoc.
    + intros x y. rewrite Hdata'.
      destruct (last_record ids x y rest); [reflexivity|].
      rewrite Hdata1.
      by destruct (both_known ids rel && bool_decide (over_pair x y rel)).
Qed.

Lemma nodes_only_wf (artifacts : list ArtifactRow) :
  wf (ids_of artifacts) (foldl add_artifact empty_graph artifacts).
Proof.
  split.
  - intros n. rewrite contains_spec, add_artifacts_nodes. simpl.
    rewrite dom_empty_L, elem_of_union, elem_of_list_to_set.
    unfold ids_of. set_solver.
  - intros x y d. by rewrite add_artifacts_no_edges.
Qed.

(** [build_artifact_graph] in full: its nodes, its warnings and the data
    of each of its edges. *)
Lemma build_artifact_graph_spec (artifacts : list ArtifactRow)
    (relationships : list RelationshipRow) :
  let ids := ids_of artifacts in
  let built := build_artifact_graph artifacts relationships in
  (forall n, contains built.1 n = true <-> n ∈ ids)
  /\ built.2 = skipped ids relationships
  /\ forall x y, get_edge_data built.1 x y
                 = edge_attrs <$> last_record ids x y relationships.
Proof.
  cbv zeta. unfold build_artifact_graph.
  destruct (add_relationships_spec (ids_of artifacts) relationships
              (foldl add_artifact empty_graph artifacts) []
              (nodes_only_wf artifacts)) as ([Hn _] & Hout & Hdata).
  split; [exact Hn|]. split; [exact Hout|].
  intros x y. rewrite Hdata.
  destruct (last_record _ x y relationships); [reflexivity|].
  by rewrite add_artifacts_no_edges.
Qed.

Lemma last_record_sound (ids : list Z) (u v : Z)
    (relationships : list RelationshipRow) (rel : RelationshipRow) :
  last_record ids u v relationships = Some rel ->
  rel ∈ relationships /\ over_pair u v rel /\ both_known ids rel = true.
Proof.
  induction relationships as [|r rest IH]; simpl; [discriminate|].
  destruct (last_record ids u v rest) as [later|].
  - intros [= ->]. destruct (IH eq_refl) as (Hin & Hover & Hk).
    split; [by apply list_elem_of_further|done].
  - destruct (both_known ids r) eqn:Ek; simpl; [|discriminate].
    case_bool_decide as Hover; [|discriminate].
    intros [= <-]. split; [apply list_elem_of_here|done].
Qed.

Lemma last_record_complete (ids : list Z) (u v : Z)
    (relationships : list RelationshipRow) (rel : RelationshipRow) :
  rel ∈ relationships -> over_pair u v rel -> both_known ids rel = true ->
  is_Some (last_record ids u v relationships).
Proof.
  intros Hin Hover Hk.
  induction relationships as [|r rest IH]; [by apply elem_of_nil in Hin|].
  simpl. apply elem_of_cons in Hin as [<-|Hin].
  - destruct (last_record ids u v rest); [done|].
    rewrite Hk, bool_decide_eq_true_2 by assumption. done.
  - destruct (IH Hin) as [later ->]. done.
Qed.

Lemma last_record_app (ids : list Z) (u v : Z) (l1 l2 : list RelationshipRow) :
  last_record ids u v (l1 ++ l2)
  = match last_record ids u v l2 with
    | Some later => Some later
    | None => last_record ids u v l1
    end.
Proof.
  induction l1 as [|r l1 IH]; simpl.
  - by destruct (last_record ids u v l2).
  - rewrite IH. by destruct (last_record ids u v l2).
Qed.

Lemma last_record_none (ids : list Z) (u v : Z) (l : list RelationshipRow) :
  Forall (fun rel => ~ over_pair u v rel) l -> last_record ids u v l = None.
Proof.
  induction 1 as [|r l Hr _ IH]; simpl; [reflexivity|].
  rewrite IH, (bool_decide_eq_false_2 _ Hr). by rewrite andb_false_r.
Qed.

Lemma over_pair_sym (u v : Z) (rel : RelationshipRow) :
  over_pair u v rel -> over_pair v u rel.
Proof. unfold over_pair. tauto. Qed.

Lemma over_pair_known (ids : list Z) (u v : Z) (rel : RelationshipRow) :
  u ∈ ids -> v ∈ ids -> over_pair u v rel -> both_known ids rel = true.
Proof.
  intros Hu Hv Hover. unfold both_known.
  apply andb_true_iff. rewrite !bool_decide_eq_true.
  destruct Hover as [[-> ->]|[-> ->]]; done.
Qed.

Lemma number_of_nodes_build (artifacts : list ArtifactRow)
    (relationships : list RelationshipRow) :
  NoDup (ids_of artifacts) ->
  number_of_nodes (build_artifact_graph artifacts relationships).1
  = length artifacts.
Proof.
  intros Hnd. unfold number_of_nodes.
  destruct (build_artifact_graph_spec artifacts relationships) as (Hn & _ & _).
  rewrite <- size_dom.
  assert (dom (_node (build_artifact_graph artifacts relationships).1)
          = list_to_set (ids_of artifacts)) as ->.
  { apply set_eq. intros n.
    rewrite <- contains_spec, elem_of_list_to_set. apply Hn. }
  rewrite size_list_to_set by assumption.
  unfold ids_of. by rewrite length_fmap.
Qed.

(** C7: the graph has an edge between two ids exactly when some record
    joins them and has both endpoints among the artifacts, so every
    endpoint of an edge is a node; every other record is dropped with a
    warning and nothing else happens; three artifacts and one record
    with an absent endpoint give three nodes, no edge and one warning. *)
Theorem build_artifact_graph_consistent (artifacts : list ArtifactRow)
    (relationships : list RelationshipRow) :
  let ids := ids_of artifacts in
  let built := build_artifact_graph artifacts relationships in
  (forall u v, has_edge built.1 u v <->
     exists rel, rel ∈ relationships /\ over_pair u v rel
                 /\ both_known ids rel = true)
  /\ (forall u v, has_edge built.1 u v ->
        contains built.1 u = true /\ contains built.1 v = true)
  /\ built.2 = skipped ids relationships
  /\ (forall rel,
        length artifacts = 3%nat -> NoDup ids -> both_known ids rel = false ->
        let alone := build_artifact_graph artifacts [rel] in
        number_of_nodes alone.1 = 3%nat
        /\ number_of_edges alone.1 = 0%nat
        /\ alone.2 = [SkippingEdge (source rel) (target rel)]).
Proof.
  cbv zeta.
  destruct (build_artifact_graph_spec artifacts relationships)
    as (Hn & Hout & Hdata).
  assert (forall u v,
            has_edge (build_artifact_graph artifacts relationships).1 u v <->
            exists rel, rel ∈ relationships /\ over_pair u v rel
                        /\ both_known (ids_of artifacts) rel = true) as Hedge.
  { intros u v. unfold has_edge. rewrite Hdata, fmap_is_Some. split.
    - intros [rel Hrel]. exists rel. by apply last_record_sound in Hrel.
    - intros (rel & Hin & Hover & Hk). by eapply last_record_complete. }
  split; [exact Hedge|]. split; [|split; [exact Hout|]].
  - intros u v (rel & _ & Hover & Hk)%Hedge.
    apply andb_true_iff in Hk. rewrite !bool_decide_eq_true in Hk.
    rewrite !Hn. destruct Hover as [[<- <-]|[<- <-]]; tauto.
  - intros rel Hlen Hnd Hk.
    destruct (build_artifact_graph_spec artifacts [rel]) as (_ & Hout1 & Hdata1).
    split; [|split].
    + by rewrite number_of_nodes_build.
    + apply no_edges_count. intros x y. rewrite Hdata1. simpl. by rewrite Hk.
    + rewrite Hout1. unfold skipped. simpl. by rewrite Hk.
Qed.

Lemma build_artifact_graph_consistent_sample :
  let alone := build_artifact_graph three_artifacts [sample_rel 2 4 "Related" (4 # 5)] in
  number_of_nodes alone.1 = 3%nat
  /\ number_of_edges alone.1 = 0%nat
  /\ alone.2 = [SkippingEdge 2 4].
Proof.
  apply (build_artifact_graph_consistent three_artifacts []).
  - reflexivity.
  - unfold ids_of, three_artifacts. simpl.
    repeat (apply NoDup_cons; split; [set_solver|]). apply NoDup_nil_2.
  - reflexivity.
Defined.

Lemma edge_attrs_lookup (rel : RelationshipRow) :
  edge_attrs rel !! "type" = Some (SVal (r_type rel))
  /\ edge_attrs rel !! "score" = Some (NVal (r_score rel))
  /\ edge_attrs rel !! "color"
     = Some (SVal (default "black" (EDGE_COLORS (r_type rel)))).
Proof. unfold edge_attrs. by simplify_map_eq. Qed.

(** C10: when two or more records join the same two nodes, the graph
    has one edge between them, and it carries the type, score and color
    of the last of those records. *)
Theorem later_record_overwrites (artifacts : list ArtifactRow)
    (before between after : list RelationshipRow)
    (earlier later : RelationshipRow) (u v : Z) :
  u ∈ ids_of artifacts -> v ∈ ids_of artifacts ->
  over_pair u v earlier -> over_pair u v later ->
  Forall (fun rel => ~ over_pair u v rel) after ->
  let G := (build_artifact_graph artifacts
              (before ++ earlier :: between ++ later :: after)).1 in
  number_of_edges_between G u v = 1%nat
  /\ get_edge_data G u v = Some (edge_attrs later)
  /\ get_edge_data G v u = Some (edge_attrs later)
  /\ edge_attrs later !! "type" = Some (SVal (r_type later))
  /\ edge_attrs later !! "score" = Some (NVal (r_score later))
  /\ edge_attrs later !! "color"
     = Some (SVal (default "black" (EDGE_COLORS (r_type later)))).
Proof.
  intros Hu Hv _ Hlater Hafter. cbv zeta.
  destruct (build_artifact_graph_spec artifacts
              (before ++ earlier :: between ++ later :: after))
    as (_ & _ & Hdata).
  assert (forall x y, over_pair x y later ->
            Forall (fun rel => ~ over_pair x y rel) after ->
            x ∈ ids_of artifacts -> y ∈ ids_of artifacts ->
            last_record (ids_of artifacts) x y
              (before ++ earlier :: between ++ later :: after) = Some later)
    as Hlast.
  { intros x y Hxy Hnone Hx Hy.
    rewrite last_record_app.
    change (earlier :: between ++ later :: after)
      with ((earlier :: between) ++ later :: after).
    rewrite last_record_app. simpl.
    rewrite (last_record_none _ _ _ _ Hnone).
    rewrite (over_pair_known _ x y) by assumption.
    by rewrite bool_decide_eq_true_2. }
  assert (get_edge_data
            (build_artifact_graph artifacts
               (before ++ earlier :: between ++ later :: after)).1 u v
          = Some (edge_attrs later)) as Huv.
  { rewrite Hdata, Hlast by assumption. reflexivity. }
  split; [|split; [exact Huv|split; [|apply edge_attrs_lookup]]].
  - unfold number_of_edges_between, neighbours.
    unfold get_edge_data in Huv.
    destruct (_adj _ !! u) as [nb|]; simpl in *; [|discriminate].
    rewrite Huv. by rewrite bool_decide_eq_true_2.
  - rewrite Hdata, Hlast; try assumption; [reflexivity|by apply over_pair_sym|].
    eapply Forall_impl; [exact Hafter|]. intros rel Hrel Hvu.
    by apply Hrel, over_pair_sym.
Qed.

Lemma later_record_overwrites_sample :
  let G := (build_artifact_graph three_artifacts
              [sample_rel 1 2 "Related" (1 # 2);
               sample_rel 2 3 "Parent-Child" 1;
               sample_rel 2 1 "FuzzyLink" (9 # 10)]).1 in
  number_of_edges_between G 1 2 = 1%nat
  /\ get_edge_data G 1 2 = Some (edge_attrs (sample_rel 2 1 "FuzzyLink" (9 # 10)))
  /\ number_of_edges G = 2%nat.
Proof.
  pose proof (later_record_overwrites three_artifacts
                [] [sample_rel 2 3 "Parent-Child" 1] []
                (sample_rel 1 2 "Related" (1 # 2))
                (sample_rel 2 1 "FuzzyLink" (9 # 10)) 1 2) as H.
  cbv zeta in H.
  destruct H as (Hone & Hdata & _).
  - unfold ids_of, three_artifacts. simpl. set_solver.
  - unfold ids_of, three_artifacts. simpl. set_solver.
  - left. split; reflexivity.
  - right. split; reflexivity.
  - constructor.
  - cbv zeta. split; [exact Hone|]. split; [exact Hdata|]. by vm_compute.
Defined.

End GraphProofs.

(** ** More on the similarity engine *)

Module FuzzyExtraProofs.
Import Fuzzy FuzzyExtra FuzzyProofs.

Section Discovery.

Variable partial_ratio : pyval -> pyval -> result Q.
Variable self : FuzzyOrganizer.
Variable target_artifact : Artifact.

Local Abbreviation score_of :=
  (calculate_artifact_similarity partial_ratio self target_artifact).

Lemma scan_one_elem (threshold : Q) (c : option Artifact) (a : Artifact) (s : Q) :
  (a, s) ∈ (scan_one partial_ratio self target_artifact threshold c).1 <->
  is_candidate target_artifact c = Some a /\ score_of a = Ok s
  /\ Qle_bool threshold s = true.
Proof.
  unfold scan_one.
  destruct (is_candidate target_artifact c) as [a'|]; simpl.
  - destruct (score_of a') as [s'|e] eqn:Es; simpl.
    + destruct (Qle_bool threshold s') eqn:El; simpl.
      * rewrite list_elem_of_singleton. split.
        -- intros [= -> ->]. done.
        -- intros ([= ->] & Hs & _). congruence.
      * rewrite elem_of_nil. split; [done|].
        intros ([= ->] & Hs & Hle). congruence.
    + rewrite elem_of_nil. split; [done|]. intros ([= ->] & Hs & _). congruence.
  - rewrite elem_of_nil. split; [done|]. intros (? & _). discriminate.
Qed.

Lemma scan_elem (threshold : Q) (all_artifacts : list (option Artifact))
    (a : Artifact) (s : Q) :
  (a, s) ∈ (scan partial_ratio self target_artifact threshold all_artifacts).1 <->
  exists c, c ∈ all_artifacts /\ is_candidate target_artifact c = Some a
            /\ score_of a = Ok s /\ Qle_bool threshold s = true.
Proof.
  induction all_artifacts as [|c l IH]; simpl.
  - rewrite elem_of_nil. split; [done|]. intros (c & Hc & _).
    by apply elem_of_nil in Hc.
  - pose proof (scan_one_elem threshold c a s) as Hone.
    destruct (scan_one partial_ratio self target_artifact threshold c)
      as [found logged].
    destruct (scan partial_ratio self target_artifact threshold l)
      as [found' logged'].
    simpl in *. rewrite elem_of_app, Hone, IH. split.
    + intros [H|(c' & Hc' & H)].
      * exists c. split; [apply list_elem_of_here|done].
      * exists c'. split; [by apply list_elem_of_further|done].
    + intros (c' & Hc' & H). apply elem_of_cons in Hc' as [->|Hc'].
      * by left.
      * right. by exists c'.
Qed.

Lemma scan_at_least (t1 t2 : Q) (all_artifacts : list (option Artifact)) :
  (t1 <= t2)%Q ->
  (scan partial_ratio self target_artifact t2 all_artifacts).1
  = at_least t2 (scan partial_ratio self target_artifact t1 all_artifacts).1.
Proof.
  intros Hle. induction all_artifacts as [|c l IH]; simpl; [reflexivity|].
  assert ((scan_one partial_ratio self target_artifact t2 c).1
          = at_least t2 (scan_one partial_ratio self target_artifact t1 c).1)
    as Hone.
  { unfold scan_one. destruct (is_candidate target_artifact c) as [a|]; [|done].
    destruct (score_of a) as [s|e]; [|done].
    destruct (Qle_bool t2 s) eqn:E2.
    - assert (Qle_bool t1 s = true) as ->.
      { apply Qle_bool_iff. apply Qle_bool_iff in E2. by eapply Qle_trans. }
      simpl. by rewrite E2.
    - destruct (Qle_bool t1 s); simpl; [by rewrite E2|done]. }
  destruct (scan_one partial_ratio self target_artifact t2 c) as [f2 g2].
  destruct (scan_one partial_ratio self target_artifact t1 c) as [f1 g1].
  destruct (scan partial_ratio self target_artifact t2 l) as [f2' g2'].
  destruct (scan partial_ratio self target_artifact t1 l) as [f1' g1'].
  simpl in *. unfold at_least in *. rewrite List.filter_app. congruence.
Qed.

Lemma is_candidate_some (c : option Artifact) (a : Artifact) :
  is_candidate target_artifact c = Some a ->
  c = Some a
  /\ exists i, art_id a = Some i /\ i <> Atom ANone
               /\ i <> getattr (art_id target_artifact) ANone.
Proof.
  unfold is_candidate, py_eq. destruct c as [a'|]; [|discriminate].
  destruct (art_id a') as [i|] eqn:Ei; simpl.
  - repeat case_bool_decide; simpl; try discriminate.
    intros [= <-]. split; [reflexivity|]. exists i. by rewrite Ei.
  - discriminate.
Qed.

(** X1: the connections returned are exactly the candidates that pass
    the guard of the loop, whose score is computed without an exception
    and is at least the threshold, each with that score. *)
Theorem connections_are_the_matches (threshold : Q)
    (all_artifacts : list (option Artifact)) (a : Artifact) (s : Q) :
  (a, s) ∈ (find_potential_connections partial_ratio self target_artifact
              all_artifacts threshold).1 <->
  exists c, c ∈ all_artifacts /\ is_candidate target_artifact c = Some a
            /\ score_of a = Ok s /\ Qle_bool threshold s = true.
Proof.
  rewrite find_is_sorted_scan, sort_reverse_perm. apply scan_elem.
Qed.

(** X2: a returned connection is one of the candidates, has an id that
    is not [None] and differs from the target's id, and its score is at
    least the threshold: the target itself is never returned. *)
Theorem connections_exclude_target (threshold : Q)
    (all_artifacts : list (option Artifact)) (a : Artifact) (s : Q) :
  (a, s) ∈ (find_potential_connections partial_ratio self target_artifact
              all_artifacts threshold).1 ->
  Some a ∈ all_artifacts
  /\ (exists i, art_id a = Some i /\ i <> Atom ANone
                /\ i <> getattr (art_id target_artifact) ANone)
  /\ (threshold <= s)%Q.
Proof.
  rewrite find_is_sorted_scan, sort_reverse_perm, scan_elem.
  intros (c & Hc & Hcand & _ & Hle).
  apply is_candidate_some in Hcand as [-> Hid].
  split; [exact Hc|]. split; [exact Hid|]. by apply Qle_bool_iff.
Qed.

(** X8: when the target has no [id] attribute, scoring raises
    [AttributeError] for every candidate that passes the guard; each is
    logged and nothing is returned. *)
Theorem target_without_id_finds_nothing (threshold : Q)
    (all_artifacts : list (option Artifact)) :
  art_id target_artifact = None ->
  let found := find_potential_connections partial_ratio self target_artifact
                 all_artifacts threshold in
  found.1 = []
  /\ forall c a, c ∈ all_artifacts -> is_candidate target_artifact c = Some a ->
       ErrorSimilarity not_available (getattr (art_id a) not_available)
                       AttributeError ∈ found.2.
Proof.
  intros Hid. cbv zeta.
  assert (forall a, score_of a = Raise AttributeError) as Hraise.
  { intros a. unfold calculate_artifact_similarity. by rewrite Hid. }
  split.
  - destruct (find_potential_connections _ _ _ _ _).1 as [|[a s] l] eqn:E;
      [reflexivity|].
    assert ((a, s) ∈ (find_potential_connections partial_ratio self
                        target_artifact all_artifacts threshold).1) as Hin
      by (rewrite E; apply list_elem_of_here).
    rewrite find_is_sorted_scan, sort_reverse_perm, scan_elem in Hin.
    destruct Hin as (c & _ & _ & Hs & _). rewrite Hraise in Hs. discriminate.
  - intros c a Hc Hcand.
    rewrite find_log by (intros ->; by apply elem_of_nil in Hc).
    apply elem_of_cons. right. apply elem_of_app. left.
    clear -Hc Hcand Hraise Hid.
    induction all_artifacts as [|c' l IH]; [by apply elem_of_nil in Hc|].
    simpl.
    destruct (scan_one partial_ratio self target_artifact threshold c')
      as [f g] eqn:Eone.
    destruct (scan partial_ratio self target_artifact threshold l) as [f' g'].
    simpl in *. apply elem_of_app.
    apply elem_of_cons in Hc as [<-|Hc]; [left|right; by apply IH].
    unfold scan_one in Eone. rewrite Hcand, Hraise, Hid in Eone.
    injection Eone as <- <-. apply list_elem_of_here.
Qed.

End Discovery.

Lemma connections_exclude_target_sample :
  Some (sample_artifact 1 "" ["x"])
    ∈ [Some (sample_artifact 0 "" ["x"]); Some (sample_artifact 1 "" ["x"])]
  /\ (exists i, art_id (sample_artifact 1 "" ["x"]) = Some i /\ i <> Atom ANone
                /\ i <> getattr (art_id (sample_artifact 0 "" ["x"])) ANone)
  /\ (20 <= shared_tag_score)%Q.
Proof.
  apply (connections_exclude_target always_raises quarter_organizer
           (sample_artifact 0 "" ["x"]) 20%Q
           [Some (sample_artifact 0 "" ["x"]); Some (sample_artifact 1 "" ["x"])]
           (sample_artifact 1 "" ["x"]) shared_tag_score).
  vm_compute. apply list_elem_of_here.
Defined.

Lemma target_without_id_finds_nothing_sample :
  (find_potential_connections always_100 default_organizer
     (target_without_id "draft" ["x"])
     [Some (sample_artifact 1 "draft" ["x"]); Some (sample_artifact 2 "plan" ["x"])]
     20%Q).1 = [].
Proof.
  apply (target_without_id_finds_nothing always_100 default_organizer
           (target_without_id "draft" ["x"]) 20%Q
           [Some (sample_artifact 1 "draft" ["x"]);
            Some (sample_artifact 2 "plan" ["x"])]).
  reflexivity.
Defined.

Lemma insert_reverse_below (t : Q) (x : Artifact * Q) (l : list (Artifact * Q)) :
  Qle_bool t (snd x) = false ->
  at_least t (insert_reverse x l) = at_least t l.
Proof.
  intros Hx. induction l as [|y l IH]; simpl; [by rewrite Hx|].
  destruct (key_lt x y); simpl; [by rewrite IH|by rewrite Hx].
Qed.

Lemma insert_reverse_front (x : Artifact * Q) (l : list (Artifact * Q)) :
  Forall (fun y => (snd y <= snd x)%Q) l -> insert_reverse x l = x :: l.
Proof.
  intros Hall. destruct l as [|y l]; [reflexivity|]. simpl.
  apply Forall_cons_1 in Hall as [Hy _].
  destruct (key_lt x y) eqn:E; [|reflexivity].
  apply key_lt_spec in E. exfalso. by eapply Qlt_not_le.
Qed.

Lemma insert_reverse_above (t : Q) (x : Artifact * Q) (l : list (Artifact * Q)) :
  descending l -> Qle_bool t (snd x) = true ->
  at_least t (insert_reverse x l) = insert_reverse x (at_least t l).
Proof.
  intros Hl Hx. unfold descending in Hl.
  induction Hl as [|y l Hl IH Hy]; simpl; [by rewrite Hx|].
  destruct (key_lt x y) eqn:E.
  - assert (Qle_bool t (snd y) = true) as Hty.
    { apply key_lt_spec in E. apply Qle_bool_iff. apply Qle_bool_iff in Hx.
      apply Qlt_le_weak in E. by eapply Qle_trans. }
    simpl. rewrite Hty. simpl. by rewrite E, IH.
  - simpl. rewrite Hx. symmetry.
    change (if Qle_bool t (snd y) then y :: at_least t l else at_least t l)
      with (at_least t (y :: l)).
    apply insert_reverse_front.
    assert (snd y <= snd x)%Q as Hyx.
    { unfold key_lt in E. apply negb_false_iff in E. by apply Qle_bool_iff in E. }
    apply Forall_forall. intros z Hz.
    apply list_elem_of_In, filter_In in Hz as [Hz _].
    apply list_elem_of_In, elem_of_cons in Hz as [->|Hz]; [exact Hyx|].
    rewrite Forall_forall in Hy. eapply Qle_trans; [by apply Hy|exact Hyx].
Qed.

Lemma at_least_sort_reverse (t : Q) (l : list (Artifact * Q)) :
  at_least t (sort_reverse l) = sort_reverse (at_least t l).
Proof.
  induction l as [|x l IH]; [reflexivity|]. simpl.
  destruct (Qle_bool t (snd x)) eqn:E.
  - rewrite insert_reverse_above by (apply sort_reverse_descending || exact E).
    by rewrite IH.
  - rewrite insert_reverse_below by exact E. exact IH.
Qed.

(** X3: with a higher threshold the result is the earlier result cut
    down to the scores that reach it, in the same order. *)
Theorem raising_threshold_filters
    (partial_ratio : pyval -> pyval -> result Q) (self : FuzzyOrganizer)
    (target_artifact : Artifact) (all_artifacts : list (option Artifact))
    (t1 t2 : Q) :
  (t1 <= t2)%Q ->
  (find_potential_connections partial_ratio self target_artifact all_artifacts t2).1
  = at_least t2
      (find_potential_connections partial_ratio self target_artifact
                                  all_artifacts t1).1.
Proof.
  intros Hle. rewrite !find_is_sorted_scan.
  rewrite (scan_at_least _ _ _ t1 t2) by exact Hle.
  symmetry. apply at_least_sort_reverse.
Qed.

Lemma raising_threshold_filters_sample :
  (find_potential_connections always_100 default_organizer
     (sample_artifact 0 "draft" ["x"])
     [Some (sample_artifact 1 "draft one" ["x"; "y"; "z"]);
      Some (sample_artifact 2 "draft two" ["x"])] 90%Q).1
  = at_least 90
      (find_potential_connections always_100 default_organizer
         (sample_artifact 0 "draft" ["x"])
         [Some (sample_artifact 1 "draft one" ["x"; "y"; "z"]);
          Some (sample_artifact 2 "draft two" ["x"])] 20%Q).1.
Proof.
  apply (raising_threshold_filters always_100 default_organizer
           (sample_artifact 0 "draft" ["x"])
           [Some (sample_artifact 1 "draft one" ["x"; "y"; "z"]);
            Some (sample_artifact 2 "draft two" ["x"])] 20%Q 90%Q).
  discriminate.
Defined.

(** *** Weights *)





(** *** Tags *)

(** The value on two lists of tag strings. *)
Lemma tag_similarity_of_strings (tags1 tags2 : list string) :
  tags1 <> [] -> tags2 <> [] ->
  calculate_tag_similarity (tag_list tags1) (tag_list tags2)
  = Ok (jaccard_index (lowered tags1) (lowered tags2) * 100)%Q
  /\ size (lowered tags1 ∪ lowered tags2) <> 0%nat.
Proof.
  intros H1 H2.
  destruct tags1 as [|t1 l1]; [done|]. destruct tags2 as [|t2 l2]; [done|].
  assert (size (lowered (t1 :: l1) ∪ lowered (t2 :: l2)) <> 0%nat) as Hne.
  { intros Hsz. apply size_empty_iff in Hsz.
    pose proof (lowered_cons_nonempty t1 l1). set_solver. }
  split; [|exact Hne].
  unfold calculate_tag_similarity, tag_list.
  change (lower_set (PList (AStr <$> t1 :: l1)))
    with (lower_set_of (AStr <$> t1 :: l1)).
  change (lower_set (PList (AStr <$> t2 :: l2)))
    with (lower_set_of (AStr <$> t2 :: l2)).
  rewrite !lower_set_of_strings.
  cbn [truthy negb orb bind fmap list_fmap bool_decide].
  rewrite (bool_decide_eq_false_2 (lowered (t1 :: l1) = ∅))
    by apply lowered_cons_nonempty.
  cbn [andb].
  destruct (Nat.eqb_spec (size (lowered (t1 :: l1) ∪ lowered (t2 :: l2))) 0)
    as [|_]; [contradiction|].
  rewrite truediv_nonzero by (by apply inject_nat_nonzero).
  reflexivity.
Qed.

(** X5: on lists of tag strings the tag similarity does not depend on
    the order of its two arguments. *)
Theorem tag_similarity_symmetric (tags1 tags2 : list string) :
  calculate_tag_similarity (tag_list tags1) (tag_list tags2)
  = calculate_tag_similarity (tag_list tags2) (tag_list tags1).
Proof.
  destruct tags1 as [|t1 l1]; [by destruct tags2|].
  destruct tags2 as [|t2 l2]; [reflexivity|].
  destruct (tag_similarity_of_strings (t1 :: l1) (t2 :: l2)) as [-> _]; [done..|].
  destruct (tag_similarity_of_strings (t2 :: l2) (t1 :: l1)) as [-> _]; [done..|].
  unfold jaccard_index.
  by rewrite (comm_L (∩) (lowered (t1 :: l1))), (comm_L (∪) (lowered (t1 :: l1))).
Qed.





Lemma lower_set_of_malformed (l : list atom) :
  all_strings l = false -> lower_set_of l = Raise AttributeError.
Proof.
  induction l as [|a l IH]; simpl; [discriminate|].
  destruct a as [|n|s]; simpl; [reflexivity..|].
  intros Hl. by rewrite IH.
Qed.

Lemma lower_set_of_well_formed (l : list atom) :
  all_strings l = true -> exists tags, lower_set_of l = Ok tags.
Proof.
  induction l as [|a l IH]; simpl; [by eexists|].
  destruct a as [|n|s]; simpl; [discriminate..|].
  intros Hl. destruct (IH Hl) as [tags ->]. by eexists.
Qed.

(** X9: when both tag lists are non-empty and one of them holds an
    element that is not a string, the tag similarity raises
    [AttributeError]. *)
Theorem tag_similarity_rejects_non_strings (tags1 tags2 : list atom) :
  tags1 <> [] -> tags2 <> [] ->
  all_strings tags1 && all_strings tags2 = false ->
  calculate_tag_similarity (PList tags1) (PList tags2) = Raise AttributeError.
Proof.
  intros H1 H2 Hbad. unfold calculate_tag_similarity. simpl.
  rewrite !bool_decide_eq_false_2 by assumption. simpl.
  destruct (all_strings tags1) eqn:E1.
  - destruct (lower_set_of_well_formed tags1 E1) as [set1 ->]. simpl.
    simpl in Hbad. by rewrite lower_set_of_malformed.
  - by rewrite lower_set_of_malformed.
Qed.

Lemma tag_similarity_rejects_non_strings_sample :
  calculate_tag_similarity (PList [AStr "draft"]) (PList [AStr "draft"; AInt 3])
  = Raise AttributeError.
Proof.
  apply (tag_similarity_rejects_non_strings [AStr "draft"] [AStr "draft"; AInt 3]);
    (discriminate || reflexivity).
Defined.

(** *** Blank attributes *)

Lemma text_similarity_blank (partial_ratio : pyval -> pyval -> result Q)
    (f1 f2 : option pyval) :
  blank f1 empty_str \/ blank f2 empty_str ->
  calculate_text_similarity partial_ratio (getattr f1 empty_str)
                            (getattr f2 empty_str) = Ok 0%Q.
Proof.
  unfold blank, calculate_text_similarity. intros [-> | ->]; simpl;
    [reflexivity|by rewrite orb_true_r].
Qed.

(** X7: when each of title, description, content and tags is absent or
    empty on at least one of two artifacts, their similarity is 0, with
    any weights and without a call of the comparator. *)
Theorem blank_attributes_score_zero
    (partial_ratio : pyval -> pyval -> result Q) (self : FuzzyOrganizer)
    (artifact1 artifact2 : Artifact) (id1 id2 : pyval) :
  art_id artifact1 = Some id1 -> art_id artifact2 = Some id2 ->
  blank (art_title artifact1) empty_str \/ blank (art_title artifact2) empty_str ->
  blank (art_description artifact1) empty_str
    \/ blank (art_description artifact2) empty_str ->
  blank (art_content artifact1) empty_str
    \/ blank (art_content artifact2) empty_str ->
  blank (art_tags artifact1) (PList []) \/ blank (art_tags artifact2) (PList []) ->
  exists s, calculate_artifact_similarity partial_ratio self artifact1 artifact2 = Ok s
            /\ (s == 0)%Q.
Proof.
  intros Hid1 Hid2 Ht Hd Hc Hg. unfold calculate_artifact_similarity.
  rewrite Hid1, Hid2. simpl.
  destruct (py_eq id1 id2); [by exists 0%Q|].
  rewrite !text_similarity_blank by assumption. simpl.
  assert (calculate_tag_similarity (getattr (art_tags artifact1) (PList []))
                                   (getattr (art_tags artifact2) (PList []))
          = Ok 0%Q) as ->.
  { unfold blank, calculate_tag_similarity in *.
    destruct Hg as [-> | ->]; simpl; [reflexivity|by rewrite orb_true_r]. }
  simpl. eexists. split; [reflexivity|]. ring.
Qed.

Lemma blank_attributes_score_zero_sample :
  exists s, calculate_artifact_similarity always_raises default_organizer
              {| art_id := Some (Atom (AInt 1)); art_title := None;
                 art_description := Some (Atom ANone);
                 art_content := Some (Atom (AStr ""));
                 art_tags := Some (PList []) |}
              (sample_artifact 2 "plan" ["x"]) = Ok s
            /\ (s == 0)%Q.
Proof.
  apply (blank_attributes_score_zero always_raises default_organizer _ _
           (Atom (AInt 1)) (Atom (AInt 2)));
    try reflexivity; by left.
Defined.

End FuzzyExtraProofs.

(** ** More on the graph assembler *)

Module GraphExtraProofs.
Import GraphForest GraphExtra GraphProofs.

Lemma node_attrs_overwrite (artifact earlier : ArtifactRow) :
  update (node_attrs earlier) (node_attrs artifact) = node_attrs artifact.
Proof.
  unfold update, node_attrs. apply map_eq. intros k.
  rewrite lookup_union.
  destruct (decide (k = "title")) as [->|?]; [by simplify_map_eq|].
  destruct (decide (k = "type")) as [->|?]; [by simplify_map_eq|].
  destruct (decide (k = "description")) as [->|?]; [by simplify_map_eq|].
  destruct (decide (k = "color")) as [->|?]; [by simplify_map_eq|].
  by simplify_map_eq.
Qed.

Lemma add_artifact_node_data (G : Graph) (artifact : ArtifactRow) (i : Z) :
  (forall n d, node_data G n = Some d -> exists a, d = node_attrs a) ->
  node_data (add_artifact G artifact) i
  = if bool_decide (a_id artifact = i) then Some (node_attrs artifact)
    else node_data G i.
Proof.
  intros Hinv. unfold node_data, add_artifact, add_node in *.
  destruct (_node G !! a_id artifact) as [d|] eqn:Ed; simpl.
  - destruct (Hinv _ _ Ed) as [earlier ->]. rewrite node_attrs_overwrite.
    case_bool_decide as Hi; [subst; by rewrite lookup_insert_eq|].
    by rewrite lookup_insert_ne.
  - unfold update. rewrite (right_id ∅ (∪)).
    case_bool_decide as Hi; [subst; by rewrite lookup_insert_eq|].
    by rewrite lookup_insert_ne.
Qed.

Lemma add_artifacts_node_data (artifacts : list ArtifactRow) (G : Graph) (i : Z) :
  (forall n d, node_data G n = Some d -> exists a, d = node_attrs a) ->
  node_data (foldl add_artifact G artifacts) i
  = match last_with_id i artifacts with
    | Some a => Some (node_attrs a)
    | None => node_data G i
    end.
Proof.
  revert G. induction artifacts as [|artifact rest IH]; intros G Hinv;
    [reflexivity|].
  cbn [foldl last_with_id]. rewrite IH.
  - destruct (last_with_id i rest); [reflexivity|].
    rewrite add_artifact_node_data by exact Hinv.
    by case_bool_decide.
  - intros n d. rewrite add_artifact_node_data by exact Hinv.
    case_bool_decide; [intros [= <-]; by eexists|apply Hinv].
Qed.

Lemma add_relationships_nodes (relationships : list RelationshipRow)
    (G : Graph) (out : list diagnostic) :
  _node (foldl add_relationship (G, out) relationships).1 = _node G.
Proof.
  revert G out. induction relationships as [|rel rest IH]; intros G out;
    [reflexivity|].
  cbn [foldl]. unfold add_relationship at 2.
  destruct (contains G (source rel) && contains G (target rel)) eqn:Ek.
  - apply andb_true_iff in Ek as [Hs Ht]. rewrite IH. by apply add_edge_nodes.
  - apply IH.
Qed.

(** X10: a node of the built graph carries the title, type, description
    and color of the last artifact given with its id, the color being
    that of the type or lightgray; ids of no artifact are not nodes, and
    the relationships change no node. *)
Theorem nodes_carry_last_artifact (artifacts : list ArtifactRow)
    (relationships : list RelationshipRow) (i : Z) :
  node_data (build_artifact_graph artifacts relationships).1 i
  = node_attrs <$> last_with_id i artifacts
  /\ forall a, node_attrs a !! "title" = Some (SVal (a_title a))
       /\ node_attrs a !! "type" = Some (SVal (a_type a))
       /\ node_attrs a !! "description" = Some (SVal (a_description a))
       /\ node_attrs a !! "color"
          = Some (SVal (default "lightgray" (NODE_COLORS (a_type a)))).
Proof.
  split.
  - unfold build_artifact_graph, node_data.
    rewrite add_relationships_nodes.
    fold (node_data (foldl add_artifact empty_graph artifacts) i).
    rewrite add_artifacts_node_data by (intros n d; discriminate).
    by destruct (last_with_id i artifacts).
  - intros a. unfold node_attrs. by simplify_map_eq.
Qed.

Lemma last_record_sym (ids : list Z) (u v : Z)
    (relationships : list RelationshipRow) :
  last_record ids u v relationships = last_record ids v u relationships.
Proof.
  induction relationships as [|rel rest IH]; [reflexivity|]. simpl.
  rewrite IH. destruct (last_record ids v u rest); [reflexivity|].
  assert (bool_decide (over_pair u v rel) = bool_decide (over_pair v u rel)) as ->;
    [|reflexivity].
  apply bool_decide_ext. unfold over_pair. tauto.
Qed.

(** X11: the built graph is undirected: the data of the edge from [u] to
    [v] is the data of the edge from [v] to [u]. *)
Theorem edge_data_symmetric (artifacts : list ArtifactRow)
    (relationships : list RelationshipRow) (u v : Z) :
  get_edge_data (build_artifact_graph artifacts relationships).1 u v
  = get_edge_data (build_artifact_graph artifacts relationships).1 v u.
Proof.
  destruct (build_artifact_graph_spec artifacts relationships) as (_ & _ & Hdata).
  by rewrite !Hdata, last_record_sym.
Qed.

Lemma skipped_perm (ids : list Z) (l1 l2 : list RelationshipRow) :
  l1 ≡ₚ l2 -> skipped ids l1 ≡ₚ skipped ids l2.
Proof.
  intros Hp. unfold skipped. apply fmap_Permutation.
  induction Hp as [|x l l' _ IH|x y l|l l' l'' _ IH1 _ IH2]; simpl.
  - reflexivity.
  - destruct (negb (both_known ids x)); [by constructor|exact IH].
  - destruct (negb (both_known ids x)), (negb (both_known ids y));
      try reflexivity. apply Permutation_swap.
  - by etrans.
Qed.

(** X12: the order of the relationship records decides neither which
    edges the graph has nor which records are skipped: two orderings of
    the same records give the same nodes, the same edges and the same
    warnings up to order. *)
Theorem record_order_keeps_edges (artifacts : list ArtifactRow)
    (relationships reordered : list RelationshipRow) :
  relationships ≡ₚ reordered ->
  let G1 := build_artifact_graph artifacts relationships in
  let G2 := build_artifact_graph artifacts reordered in
  (forall n, contains G1.1 n = contains G2.1 n)
  /\ (forall u v, has_edge G1.1 u v <-> has_edge G2.1 u v)
  /\ G1.2 ≡ₚ G2.2.
Proof.
  intros Hp. cbv zeta.
  destruct (build_artifact_graph_spec artifacts relationships)
    as (Hn1 & Hout1 & Hdata1).
  destruct (build_artifact_graph_spec artifacts reordered)
    as (Hn2 & Hout2 & Hdata2).
  split; [|split].
  - intros n. apply eq_true_iff_eq. by rewrite Hn1, Hn2.
  - intros u v. unfold has_edge. rewrite Hdata1, Hdata2, !fmap_is_Some.
    split; intros [rel Hrel]; apply last_record_sound in Hrel
      as (Hin & Hover & Hk); eapply last_record_complete; eauto.
    + by rewrite <- Hp.
    + by rewrite Hp.
  - rewrite Hout1, Hout2. by apply skipped_perm.
Qed.

Lemma record_order_keeps_edges_sample :
  let G1 := build_artifact_graph three_artifacts
              [sample_rel 1 2 "Related" (1 # 2); sample_rel 2 4 "FuzzyLink" 1] in
  let G2 := build_artifact_graph three_artifacts
              [sample_rel 2 4 "FuzzyLink" 1; sample_rel 1 2 "Related" (1 # 2)] in
  (forall n, contains G1.1 n = contains G2.1 n)
  /\ (forall u v, has_edge G1.1 u v <-> has_edge G2.1 u v)
  /\ G1.2 ≡ₚ G2.2.
Proof.
  apply (record_order_keeps_edges three_artifacts
           [sample_rel 1 2 "Related" (1 # 2); sample_rel 2 4 "FuzzyLink" 1]
           [sample_rel 2 4 "FuzzyLink" 1; sample_rel 1 2 "Related" (1 # 2)]).
  apply Permutation_swap.
Defined.

End GraphExtraProofs.

(** ** More on the database *)

Module TablesProofs.
Import Database Tables DatabaseProofs.

Section Ordering.

Context {A : Type} (before : A -> A -> bool).
Hypothesis before_total : forall x y, before x y = false -> before y x = true.

Lemma insert_by_perm (x : A) (l : list A) : insert_by before x l ≡ₚ x :: l.
Proof.
  induction l as [|y l IH]; simpl; [reflexivity|].
  destruct (before x y); [reflexivity|].
  rewrite IH. apply Permutation_swap.
Qed.

Lemma order_by_perm (l : list A) : order_by before l ≡ₚ l.
Proof.
  induction l as [|x l IH]; simpl; [reflexivity|].
  by rewrite insert_by_perm, IH.
Qed.

Lemma insert_by_hd (x y : A) (l : list A) :
  before y x = true -> HdRel (fun a b => before a b = true) y l ->
  HdRel (fun a b => before a b = true) y (insert_by before x l).
Proof.
  intros Hyx Hl. destruct l as [|z l]; simpl; [by constructor|].
  destruct (before x z); constructor; [exact Hyx|].
  by inversion Hl.
Qed.

Lemma insert_by_sorted (x : A) (l : list A) :
  Sorted (fun a b => before a b = true) l ->
  Sorted (fun a b => before a b = true) (insert_by before x l).
Proof.
  induction 1 as [|y l Hl IH Hy]; simpl.
  - repeat constructor.
  - destruct (before x y) eqn:E.
    + constructor; [by constructor|by constructor].
    + constructor; [exact IH|].
      apply insert_by_hd; [by apply before_total|exact Hy].
Qed.

Lemma order_by_sorted (l : list A) :
  Sorted (fun a b => before a b = true) (order_by before l).
Proof.
  induction l as [|x l IH]; simpl; [constructor|].
  by apply insert_by_sorted.
Qed.

End Ordering.

Lemma leb_false_flip (s1 s2 : string) :
  String.leb s1 s2 = false -> String.leb s2 s1 = true.
Proof. intros H. destruct (String.leb_total s1 s2); congruence. Qed.

Lemma involves_spec (x : Z) (r : Relationship) :
  involves x r = true <-> artifact_id_1 r = x \/ artifact_id_2 r = x.
Proof. unfold involves. rewrite orb_true_iff, !Z.eqb_eq. tauto. Qed.

(** X13: [get_relationships_for_artifact] returns exactly the rows that
    have the artifact as one of their two ids, the newest first; without
    a connection it returns the empty list. *)
Theorem relationships_for_artifact_are_its_rows (db : DB) (artifact_id : Z) :
  (forall r, r ∈ get_relationships_for_artifact true db artifact_id <->
             r ∈ relationships db
             /\ (artifact_id_1 r = artifact_id \/ artifact_id_2 r = artifact_id))
  /\ Sorted (fun r1 r2 => String.leb (created_at r2) (created_at r1) = true)
            (get_relationships_for_artifact true db artifact_id)
  /\ get_relationships_for_artifact false db artifact_id = [].
Proof.
  split; [|split; [|reflexivity]].
  - intros r. unfold get_relationships_for_artifact.
    rewrite order_by_perm, !list_elem_of_In, filter_In, involves_spec. tauto.
  - apply (order_by_sorted newer_first).
    intros r1 r2. apply leb_false_flip.
Qed.

(** What a successful [create_relationship] did. *)
Lemma create_returns_some (now : string) (db db' : DB) (a b rid : Z)
    (rtype : string) (score : Q) (descr : string) (conn : bool) :
  create_relationship conn now db a b rtype score descr = (Some rid, db') ->
  rid = sqlite_sequence db + 1
  /\ db' = {| relationships :=
               relationships db ++
               [{| id := rid; artifact_id_1 := Z.min a b;
                   artifact_id_2 := Z.max a b; relationship_type := rtype;
                   fuzzy_score := score; description := descr;
                   created_at := now |}];
             sqlite_sequence := rid |}.
Proof.
  unfold create_relationship. rewrite ordered_ids.
  destruct conn; [|discriminate]. unfold insert_or_ignore.
  destruct (existsb _ _); simpl; [discriminate|].
  intros [= <- <-]. done.
Qed.

(** X14: a relationship that [create_relationship] stored is returned by
    [get_relationships_for_artifact] for each of the two artifacts, with
    the id that was returned, the smaller artifact id first and the
    type, score and description that were given. *)
Theorem created_relationship_is_found (now : string) (db db' : DB) (a b rid : Z)
    (rtype : string) (score : Q) (descr : string) :
  create_relationship true now db a b rtype score descr = (Some rid, db') ->
  let row := {| id := rid; artifact_id_1 := Z.min a b;
                artifact_id_2 := Z.max a b; relationship_type := rtype;
                fuzzy_score := score; description := descr;
                created_at := now |} in
  row ∈ get_relationships_for_artifact true db' a
  /\ row ∈ get_relationships_for_artifact true db' b.
Proof.
  intros Hc. apply create_returns_some in Hc as [_ ->]. cbv zeta.
  unfold get_relationships_for_artifact. simpl.
  rewrite !order_by_perm, !list_elem_of_In, !filter_In, <- !list_elem_of_In.
  rewrite !involves_spec. simpl.
  split; (split; [apply elem_of_app; right; apply list_elem_of_here|lia]).
Qed.

Lemma created_relationship_is_found_sample :
  let row := {| id := 1; artifact_id_1 := Z.min 2 1; artifact_id_2 := Z.max 2 1;
                relationship_type := "synapse"; fuzzy_score := 3 # 4;
                description := ""; created_at := "2024-01-01T00:00:00" |} in
  row ∈ get_relationships_for_artifact true first_synapse 2
  /\ row ∈ get_relationships_for_artifact true first_synapse 1.
Proof.
  apply (created_relationship_is_found "2024-01-01T00:00:00" empty_db
           first_synapse 2 1 1 "synapse" (3 # 4) "").
  reflexivity.
Defined.

Lemma filter_sublist {B : Type} (f : B -> bool) (l : list B) :
  sublist (List.filter f l) l.
Proof.
  induction l as [|x l IH]; simpl; [constructor|].
  destruct (f x); by constructor.
Qed.

(** The invariants of the relationships table. *)
Lemma reachable_invariants (db : DB) :
  reachable db ->
  Forall (fun r => id r <= sqlite_sequence db) (relationships db)
  /\ NoDup (id <$> relationships db)
  /\ NoDup ((fun r => (artifact_id_1 r, artifact_id_2 r)) <$> relationships db).
Proof.
  induction 1 as [|conn now db a b rtype score descr _ (Hle & Hid & Hpair)
                  |conn db rid _ (Hle & Hid & Hpair)].
  - simpl. repeat split; constructor.
  - unfold create_relationship. rewrite ordered_ids.
    destruct conn; [|done]. unfold insert_or_ignore.
    destruct (existsb _ _) eqn:Ex; simpl; [done|].
    split; [|split].
    + apply Forall_app. split; [|repeat constructor; simpl; lia].
      eapply Forall_impl; [exact Hle|]. simpl. intros. lia.
    + rewrite fmap_app. apply NoDup_app. split; [exact Hid|].
      split; [|apply NoDup_singleton].
      intros i Hi [= ->]%list_elem_of_singleton.
      apply list_elem_of_fmap in Hi as (r & Hr & Hin).
      rewrite Forall_forall in Hle. specialize (Hle r Hin). lia.
    + rewrite fmap_app. apply NoDup_app. split; [exact Hpair|].
      split; [|apply NoDup_singleton].
      intros p Hp [= ->]%list_elem_of_singleton.
      apply list_elem_of_fmap in Hp as (r & [= H1 H2] & Hin).
      apply (proj1 (no_conflict_spec _ _ _) Ex r Hin). done.
  - unfold delete_relationship. destruct conn; [|done]. simpl.
    split; [|split].
    + rewrite Forall_forall in *. intros r Hr. apply Hle.
      apply list_elem_of_In. apply list_elem_of_In, filter_In in Hr. tauto.
    + eapply sublist_NoDup; [exact Hid|]. apply fmap_sublist, filter_sublist.
    + eapply sublist_NoDup; [exact Hpair|]. apply fmap_sublist, filter_sublist.
Qed.

Lemma fmap_eq_in_nodup {B C : Type} (f : B -> C) (l : list B) (x y : B) :
  NoDup (f <$> l) -> x ∈ l -> y ∈ l -> f x = f y -> x = y.
Proof.
  induction l as [|z l IH]; simpl; [by intros _ ?%elem_of_nil|].
  intros Hnd Hx Hy Hf. apply NoDup_cons in Hnd as [Hz Hnd].
  apply elem_of_cons in Hx as [->|Hx]; apply elem_of_cons in Hy as [->|Hy].
  - reflexivity.
  - exfalso. apply Hz. rewrite Hf. by apply list_elem_of_fmap_2.
  - exfalso. apply Hz. rewrite <- Hf. by apply list_elem_of_fmap_2.
  - by apply IH.
Qed.

(** X15: in every table these operations produce, no two rows share a
    row id, and no two rows join the same two artifacts, in whichever
    order the ids are read. *)
Theorem one_row_per_pair (db : DB) :
  reachable db ->
  NoDup (id <$> relationships db)
  /\ forall r1 r2, r1 ∈ relationships db -> r2 ∈ relationships db ->
       joins (artifact_id_1 r1) (artifact_id_2 r1) r2 -> r1 = r2.
Proof.
  intros Hreach.
  destruct (reachable_invariants db Hreach) as (_ & Hid & Hpair).
  split; [exact Hid|]. intros r1 r2 H1 H2 Hj.
  pose proof (reachable_rows_ordered db Hreach) as Hord.
  rewrite Forall_forall in Hord.
  pose proof (Hord r1 H1). pose proof (Hord r2 H2).
  apply (fmap_eq_in_nodup _ _ _ _ Hpair H1 H2).
  unfold joins in Hj. f_equal; lia.
Qed.

Lemma one_row_per_pair_sample :
  NoDup (id <$> relationships first_synapse)
  /\ forall r1 r2, r1 ∈ relationships first_synapse ->
       r2 ∈ relationships first_synapse ->
       joins (artifact_id_1 r1) (artifact_id_2 r1) r2 -> r1 = r2.
Proof.
  apply (one_row_per_pair first_synapse).
  apply reachable_create. apply reachable_empty.
Defined.

(** X16: deleting a relationship by the id its creation returned gives
    back the rows there were before; the id had never been used, and the
    counter keeps it from being used again. *)
Theorem create_then_delete_restores (now : string) (db db' : DB) (a b rid : Z)
    (rtype : string) (score : Q) (descr : string) :
  reachable db ->
  create_relationship true now db a b rtype score descr = (Some rid, db') ->
  delete_relationship true db' rid
  = (true, {| relationships := relationships db; sqlite_sequence := rid |})
  /\ Forall (fun r => id r < rid) (relationships db).
Proof.
  intros Hreach Hc.
  destruct (reachable_invariants db Hreach) as (Hle & _ & _).
  apply create_returns_some in Hc as [-> ->].
  assert (Forall (fun r => id r < sqlite_sequence db + 1) (relationships db))
    as Hlt.
  { eapply Forall_impl; [exact Hle|]. simpl. intros. lia. }
  split; [|exact Hlt].
  unfold delete_relationship. simpl.
  rewrite !List.filter_app. simpl. rewrite Z.eqb_refl. simpl.
  assert (List.filter (fun r => id r =? sqlite_sequence db + 1) (relationships db)
          = []) as ->.
  { clear -Hlt. induction Hlt as [|r l Hr _ IH]; simpl; [reflexivity|].
    destruct (Z.eqb_spec (id r) (sqlite_sequence db + 1)); [lia|exact IH]. }
  assert (List.filter (fun r => negb (id r =? sqlite_sequence db + 1))
                      (relationships db) = relationships db) as ->.
  { clear -Hlt. induction Hlt as [|r l Hr _ IH]; simpl; [reflexivity|].
    destruct (Z.eqb_spec (id r) (sqlite_sequence db + 1)); [lia|].
    simpl. by rewrite IH. }
  by rewrite app_nil_r.
Qed.

Lemma create_then_delete_restores_sample :
  delete_relationship true first_synapse 1
  = (true, {| relationships := relationships empty_db; sqlite_sequence := 1 |})
  /\ Forall (fun r => id r < 1) (relationships empty_db).
Proof.
  apply (create_then_delete_restores "2024-01-01T00:00:00" empty_db
           first_synapse 2 1 1 "synapse" (3 # 4) "").
  - apply reachable_empty.
  - reflexivity.
Defined.

(** *** Tags and links *)

Lemma find_app {B : Type} (f : B -> bool) (l1 l2 : list B) :
  List.find f (l1 ++ l2)
  = match List.find f l1 with
    | Some x => Some x
    | None => List.find f l2
    end.
Proof.
  induction l1 as [|x l1 IH]; simpl; [reflexivity|].
  by destruct (f x).
Qed.

Lemma find_existsb {B : Type} (f : B -> bool) (l : list B) :
  existsb f l = true -> exists x, List.find f l = Some x /\ f x = true /\ x ∈ l.
Proof.
  induction l as [|y l IH]; simpl; [discriminate|].
  destruct (f y) eqn:E; simpl.
  - intros _. exists y. split; [reflexivity|]. split; [exact E|].
    apply list_elem_of_here.
  - intros H. destruct (IH H) as (x & Hf & Hx & Hin).
    exists x. split; [exact Hf|]. split; [exact Hx|].
    by apply list_elem_of_further.
Qed.

Lemma find_not_existsb {B : Type} (f : B -> bool) (l : list B) :
  existsb f l = false -> List.find f l = None.
Proof.
  induction l as [|y l IH]; simpl; [reflexivity|].
  destruct (f y); simpl; [discriminate|exact IH].
Qed.

Lemma existsb_elem {B : Type} (f : B -> bool) (l : list B) :
  existsb f l = true <-> exists x, x ∈ l /\ f x = true.
Proof.
  rewrite existsb_exists. split; intros (x & H1 & H2); exists x.
  - split; [by apply list_elem_of_In|exact H2].
  - split; [by apply list_elem_of_In|exact H2].
Qed.

Lemma create_tag_existing (t : Tags) (name : string) (r : Tag) :
  List.find (fun r => bool_decide (tag_name r = name)) (tag_rows t) = Some r ->
  create_tag true true t (Some name) = (Ok (Some (tag_id r)), t).
Proof.
  intros Hfind. unfold create_tag, get_tag_by_name. rewrite Hfind.
  assert (existsb (fun r => bool_decide (tag_name r = name)) (tag_rows t) = true)
    as ->; [|reflexivity].
  apply find_some in Hfind as [Hin Hn].
  apply existsb_exists. by exists r.
Qed.

Lemma create_tag_new (t : Tags) (name : string) :
  existsb (fun r => bool_decide (tag_name r = name)) (tag_rows t) = false ->
  create_tag true true t (Some name)
  = (Ok (Some (tag_sequence t + 1)),
     {| tag_rows := tag_rows t ++ [{| tag_id := tag_sequence t + 1;
                                      tag_name := name |}];
        tag_sequence := tag_sequence t + 1 |}).
Proof. intros Ex. unfold create_tag. by rewrite Ex. Qed.

(** X17: [create_tag] gets or creates.  With a name it returns an id
    under which [get_tag_by_name] then finds the tag; a name already in
    the table leaves the table as it is, and calling again returns the
    same id and changes nothing.  With [None] as the name it raises
    [TypeError] and stores nothing. *)
Theorem create_tag_gets_or_creates (t : Tags) (name : string) :
  (exists i,
      (create_tag true true t (Some name)).1 = Ok (Some i)
      /\ get_tag_by_name true (create_tag true true t (Some name)).2 (Some name)
         = Some {| tag_id := i; tag_name := name |}
      /\ create_tag true true (create_tag true true t (Some name)).2 (Some name)
         = (Ok (Some i), (create_tag true true t (Some name)).2)
      /\ ((exists r, r ∈ tag_rows t /\ tag_name r = name) ->
          (create_tag true true t (Some name)).2 = t))
  /\ forall conn_lookup, create_tag true conn_lookup t None = (Raise TypeError, t).
Proof.
  split; [|by intros []].
  destruct (existsb (fun r => bool_decide (tag_name r = name)) (tag_rows t))
    eqn:Ex.
  - destruct (find_existsb _ _ Ex) as ([i n] & Hfind & Hn & _).
    apply bool_decide_eq_true in Hn. simpl in Hn. subst n.
    rewrite !(create_tag_existing t name _ Hfind). cbn [fst snd tag_id].
    exists i. split; [reflexivity|]. split; [exact Hfind|].
    split; [by rewrite ?(create_tag_existing t name _ Hfind)|done].
  - rewrite !(create_tag_new t name Ex). cbn [fst snd].
    assert (List.find (fun r => bool_decide (tag_name r = name))
              (tag_rows t ++ [{| tag_id := tag_sequence t + 1; tag_name := name |}])
            = Some {| tag_id := tag_sequence t + 1; tag_name := name |}) as Hfind.
    { rewrite find_app, (find_not_existsb _ _ Ex). simpl.
      by rewrite bool_decide_eq_true_2 by reflexivity. }
    exists (tag_sequence t + 1). split; [reflexivity|]. split; [exact Hfind|].
    split.
    + exact (create_tag_existing (Build_Tags _ _) name _ Hfind).
    + intros (r & Hr & Hn). exfalso.
      assert (existsb (fun r => bool_decide (tag_name r = name)) (tag_rows t)
              = true) as Ht; [|congruence].
      apply existsb_elem. exists r. split; [exact Hr|].
      by apply bool_decide_eq_true.
Qed.

Lemma reachable_tags_invariants (t : Tags) :
  reachable_tags t ->
  Forall (fun r => tag_id r <= tag_sequence t) (tag_rows t)
  /\ NoDup (tag_id <$> tag_rows t)
  /\ NoDup (tag_name <$> tag_rows t).
Proof.
  induction 1 as [|conn conn_lookup t name _ (Hle & Hid & Hname)
                  |conn t tid _ (Hle & Hid & Hname)].
  - simpl. repeat split; constructor.
  - unfold create_tag. destruct conn; [|done].
    destruct name as [n|]; [|done].
    destruct (existsb _ _) eqn:Ex; simpl; [done|].
    split; [|split].
    + apply Forall_app. split; [|repeat constructor; simpl; lia].
      eapply Forall_impl; [exact Hle|]. simpl. intros. lia.
    + rewrite fmap_app. apply NoDup_app. split; [exact Hid|].
      split; [|apply NoDup_singleton].
      intros i Hi [= ->]%list_elem_of_singleton.
      apply list_elem_of_fmap in Hi as (r & Hr & Hin).
      rewrite Forall_forall in Hle. specialize (Hle r Hin). lia.
    + rewrite fmap_app. apply NoDup_app. split; [exact Hname|].
      split; [|apply NoDup_singleton].
      intros m Hm [= ->]%list_elem_of_singleton.
      apply list_elem_of_fmap in Hm as (r & Hr & Hin).
      assert (existsb (fun r => bool_decide (tag_name r = n)) (tag_rows t) = true)
        as Ht; [|congruence].
      apply existsb_elem. exists r. split; [exact Hin|].
      by apply bool_decide_eq_true.
  - unfold delete_tag. destruct conn; [|done]. simpl.
    split; [|split].
    + rewrite Forall_forall in *. intros r Hr. apply Hle.
      apply list_elem_of_In. apply list_elem_of_In, filter_In in Hr. tauto.
    + eapply sublist_NoDup; [exact Hid|]. apply fmap_sublist, filter_sublist.
    + eapply sublist_NoDup; [exact Hname|]. apply fmap_sublist, filter_sublist.
Qed.

(** X18: in every tags table produced by [create_tag] and [delete_tag],
    no two tags share a name and no two share an id, so a name or an id
    finds at most one tag. *)
Theorem tag_names_stay_unique (t : Tags) :
  reachable_tags t ->
  NoDup (tag_name <$> tag_rows t)
  /\ NoDup (tag_id <$> tag_rows t)
  /\ forall r1 r2, r1 ∈ tag_rows t -> r2 ∈ tag_rows t ->
       tag_name r1 = tag_name r2 \/ tag_id r1 = tag_id r2 -> r1 = r2.
Proof.
  intros Hreach.
  destruct (reachable_tags_invariants t Hreach) as (_ & Hid & Hname).
  split; [exact Hname|]. split; [exact Hid|].
  intros r1 r2 H1 H2 [Hn|Hi].
  - by apply (fmap_eq_in_nodup _ _ _ _ Hname H1 H2).
  - by apply (fmap_eq_in_nodup _ _ _ _ Hid H1 H2).
Qed.

Lemma tag_names_stay_unique_sample :
  NoDup (tag_name <$> tag_rows two_tags)
  /\ NoDup (tag_id <$> tag_rows two_tags)
  /\ forall r1 r2, r1 ∈ tag_rows two_tags -> r2 ∈ tag_rows two_tags ->
       tag_name r1 = tag_name r2 \/ tag_id r1 = tag_id r2 -> r1 = r2.
Proof.
  apply (tag_names_stay_unique two_tags).
  apply reachable_create_tag, reachable_create_tag, reachable_no_tags.
Defined.

Lemma same_link_spec (a t : Z) (l : Z * Z) :
  same_link a t l = true <-> l = (a, t).
Proof.
  unfold same_link. destruct l as [x y]. simpl.
  rewrite andb_true_iff, !Z.eqb_eq. split; [by intros [-> ->]|by intros [= -> ->]].
Qed.

Lemma filter_keeps_all {B : Type} (f : B -> bool) (l : list B) :
  existsb (fun x => negb (f x)) l = false -> List.filter f l = l.
Proof.
  induction l as [|x l IH]; simpl; [reflexivity|].
  destruct (f x); simpl; [|discriminate]. intros H. by rewrite IH.
Qed.

Lemma add_link_present (links : list (Z * Z)) (a t : Z) :
  (a, t) ∈ links -> add_tag_to_artifact true links a t = (false, links).
Proof.
  intros Hin. unfold add_tag_to_artifact.
  assert (existsb (same_link a t) links = true) as ->; [|reflexivity].
  apply existsb_elem. eexists. split; [exact Hin|]. by apply same_link_spec.
Qed.

Lemma add_link_absent (links : list (Z * Z)) (a t : Z) :
  (a, t) ∉ links ->
  add_tag_to_artifact true links a t = (true, links ++ [(a, t)]).
Proof.
  intros Hnot. unfold add_tag_to_artifact.
  destruct (existsb (same_link a t) links) eqn:Ex; [|reflexivity].
  apply existsb_elem in Ex as (l & Hl & Hs).
  apply same_link_spec in Hs. by subst.
Qed.

Lemma remove_link_elem (links : list (Z * Z)) (a t : Z) (l : Z * Z) :
  l ∈ (remove_tag_from_artifact true links a t).2 <-> l ∈ links /\ l <> (a, t).
Proof.
  unfold remove_tag_from_artifact. cbn [snd].
  rewrite list_elem_of_In, filter_In, <- list_elem_of_In.
  rewrite negb_true_iff, <- not_true_iff_false, same_link_spec. tauto.
Qed.

(** X19: [add_tag_to_artifact] stores a link once: it returns True
    exactly when the link was not there, a second call returns False and
    changes nothing, and [remove_tag_from_artifact] after a first link
    returns True and gives back the links there were before. *)
Theorem link_is_stored_once (links : list (Z * Z)) (artifact_id tag : Z) :
  let added := add_tag_to_artifact true links artifact_id tag in
  (artifact_id, tag) ∈ added.2
  /\ (added.1 = true <-> (artifact_id, tag) ∉ links)
  /\ add_tag_to_artifact true added.2 artifact_id tag = (false, added.2)
  /\ (added.1 = true ->
      remove_tag_from_artifact true added.2 artifact_id tag = (true, links))
  /\ (forall l, l ∈ (remove_tag_from_artifact true added.2 artifact_id tag).2 <->
                l ∈ links /\ l <> (artifact_id, tag)).
Proof.
  cbv zeta. destruct (decide ((artifact_id, tag) ∈ links)) as [Hin|Hnot].
  - rewrite !(add_link_present _ _ _ Hin). cbn [fst snd].
    split; [exact Hin|]. split; [split; [discriminate|done]|].
    split; [by apply add_link_present|]. split; [discriminate|].
    apply remove_link_elem.
  - rewrite !(add_link_absent _ _ _ Hnot). cbn [fst snd].
    assert ((artifact_id, tag) ∈ links ++ [(artifact_id, tag)]) as Hin
      by (apply elem_of_app; right; apply list_elem_of_here).
    split; [exact Hin|]. split; [done|].
    split; [by apply add_link_present|].
    assert (remove_tag_from_artifact true (links ++ [(artifact_id, tag)])
                                     artifact_id tag = (true, links)) as Hrem.
    { unfold remove_tag_from_artifact.
      assert (existsb (same_link artifact_id tag) (links ++ [(artifact_id, tag)])
              = true) as ->.
      { apply existsb_elem. eexists. split; [exact Hin|]. by apply same_link_spec. }
      rewrite List.filter_app. simpl.
      rewrite (proj2 (same_link_spec artifact_id tag _) eq_refl). simpl.
      rewrite app_nil_r. f_equal. apply filter_keeps_all.
      destruct (existsb _ links) eqn:Ex; [|reflexivity].
      apply existsb_elem in Ex as (l & Hl & Hs).
      rewrite negb_involutive in Hs. apply same_link_spec in Hs. by subst. }
    split; [done|]. intros l. rewrite Hrem. cbn [snd]. split.
    + intros Hl. split; [exact Hl|]. by intros ->.
    + tauto.
Qed.

Lemma by_name_total (t1 t2 : Tag) : by_name t1 t2 = false -> by_name t2 t1 = true.
Proof. apply leb_false_flip. Qed.

(** X20: [get_tags_for_artifact] returns exactly the tags of the table
    that a link joins to the artifact, in ascending order of name;
    without a connection it returns the empty list. *)
Theorem tags_for_artifact_are_linked (t : Tags) (links : list (Z * Z))
    (artifact_id : Z) :
  (forall r, r ∈ get_tags_for_artifact true t links artifact_id <->
             r ∈ tag_rows t /\ (artifact_id, tag_id r) ∈ links)
  /\ Sorted (fun r1 r2 => String.leb (tag_name r1) (tag_name r2) = true)
            (get_tags_for_artifact true t links artifact_id)
  /\ get_tags_for_artifact false t links artifact_id = [].
Proof.
  split; [|split; [|reflexivity]].
  - intros r. unfold get_tags_for_artifact.
    rewrite order_by_perm, list_elem_of_In, in_flat_map. split.
    + intros (r' & Hr' & Hin). apply list_elem_of_In in Hr', Hin.
      apply list_elem_of_fmap in Hin as (l & -> & Hl).
      apply list_elem_of_In, filter_In in Hl as [Hl Hs].
      apply same_link_spec in Hs. subst l.
      split; [exact Hr'|by apply list_elem_of_In].
    + intros [Hr Hl]. exists r. split; [by apply list_elem_of_In|].
      apply list_elem_of_In, list_elem_of_fmap. eexists. split; [reflexivity|].
      apply list_elem_of_In, filter_In.
      split; [by apply list_elem_of_In|by apply same_link_spec].
  - apply (order_by_sorted by_name), by_name_total.
Qed.

(** X21: after [create_tag] returned an id for a name and
    [add_tag_to_artifact] linked that id to an artifact,
    [get_tags_for_artifact] lists the tag of that name for the
    artifact. *)
Theorem created_tag_is_listed (t : Tags) (name : string) (links : list (Z * Z))
    (artifact_id : Z) :
  exists i,
    (create_tag true true t (Some name)).1 = Ok (Some i)
    /\ {| tag_id := i; tag_name := name |}
       ∈ get_tags_for_artifact true (create_tag true true t (Some name)).2
           (add_tag_to_artifact true links artifact_id i).2 artifact_id.
Proof.
  assert (exists i, (create_tag true true t (Some name)).1 = Ok (Some i)
                    /\ {| tag_id := i; tag_name := name |}
                       ∈ tag_rows (create_tag true true t (Some name)).2)
    as (i & Hi & Hrow).
  { unfold create_tag.
    destruct (existsb (fun r => bool_decide (tag_name r = name)) (tag_rows t))
      eqn:Ex.
    - destruct (find_existsb _ _ Ex) as ([i n] & Hfind & Hn & Hin).
      apply bool_decide_eq_true in Hn. simpl in Hn. subst n.
      exists i. simpl. by rewrite Hfind.
    - eexists. simpl. split; [reflexivity|].
      apply elem_of_app. right. apply list_elem_of_here. }
  exists i. split; [exact Hi|].
  unfold get_tags_for_artifact.
  rewrite order_by_perm, list_elem_of_In, in_flat_map.
  eexists. split; [apply list_elem_of_In; exact Hrow|].
  apply list_elem_of_In, list_elem_of_fmap. eexists. split; [reflexivity|].
  apply list_elem_of_In, filter_In. simpl.
  split; [|by apply same_link_spec].
  apply list_elem_of_In. unfold add_tag_to_artifact.
  destruct (existsb (same_link artifact_id i) links) eqn:Ex; simpl.
  - apply existsb_elem in Ex as (l & Hl & Hs).
    apply same_link_spec in Hs. by subst.
  - apply elem_of_app. right. apply list_elem_of_here.
Qed.

(** *** Projects *)

Lemma title_taken_spec (t : Projects) (pid : Z) (title : option string) :
  title_taken t pid title = false <->
  forall new_title r, title = Some new_title -> r ∈ project_rows t ->
                      p_id r <> pid -> p_title r <> new_title.
Proof.
  unfold title_taken. destruct title as [nt|]; [|by split].
  split.
  - intros Hex n r [= <-] Hr Hid Ht.
    assert (existsb (fun r => negb (p_id r =? pid) && bool_decide (p_title r = nt))
                    (project_rows t) = true) as H; [|congruence].
    apply existsb_elem. exists r. split; [exact Hr|].
    apply andb_true_iff. split; [|by apply bool_decide_eq_true].
    apply negb_true_iff. by apply Z.eqb_neq.
  - intros Hall. destruct (existsb _ _) eqn:Ex; [|reflexivity].
    apply existsb_elem in Ex as (r & Hr & Hc).
    apply andb_true_iff in Hc as [Hid Ht].
    apply negb_true_iff, Z.eqb_neq in Hid. apply bool_decide_eq_true in Ht.
    exfalso. by apply (Hall nt r).
Qed.

Lemma update_project_done (now : string) (t : Projects) (pid : Z)
    (title description category : option string) :
  is_Some title \/ is_Some description \/ is_Some category ->
  existsb (fun r => p_id r =? pid) (project_rows t) = true ->
  title_taken t pid title = false ->
  update_project true now t pid title description category
  = (true,
     {| project_rows :=
          (fun r => if p_id r =? pid
                    then set_fields now title description category r else r)
            <$> project_rows t;
        project_sequence := project_sequence t |}).
Proof.
  intros Hsome Hex Htaken. unfold update_project.
  rewrite Hex, Htaken.
  assert (bool_decide (is_Some title) || bool_decide (is_Some description)
          || bool_decide (is_Some category) = true) as ->; [|reflexivity].
  rewrite !orb_true_iff, !bool_decide_eq_true. tauto.
Qed.

Lemma update_project_refused (now : string) (t : Projects) (pid : Z)
    (title description category : option string) (t' : Projects) :
  update_project true now t pid title description category = (false, t') ->
  t' = t.
Proof.
  unfold update_project.
  repeat (match goal with |- context [if ?b then _ else _] => destruct b end);
    by intros [= <-].
Qed.

Lemma find_fmap_id (f : Project -> Project) (q : Z) (l : list Project) :
  (forall r, p_id (f r) = p_id r) ->
  List.find (fun r => p_id r =? q) (f <$> l)
  = f <$> List.find (fun r => p_id r =? q) l.
Proof.
  intros Hid. induction l as [|r l IH]; [reflexivity|]. cbn [fmap list_fmap find].
  rewrite Hid. destruct (p_id r =? q); [reflexivity|exact IH].
Qed.

(** X22: [update_project] succeeds exactly when a field is given, the
    project exists and no other project has the new title.  It then
    replaces the given fields of that project, keeps the others, sets
    [updated_at], and leaves every other project as it was; when it
    returns False the table is unchanged. *)
Theorem update_project_changes_one (now : string) (t : Projects) (pid : Z)
    (title description category : option string) :
  let updated := update_project true now t pid title description category in
  (updated.1 = true <->
     (is_Some title \/ is_Some description \/ is_Some category)
     /\ (exists r, r ∈ project_rows t /\ p_id r = pid)
     /\ forall new_title r, title = Some new_title -> r ∈ project_rows t ->
                           p_id r <> pid -> p_title r <> new_title)
  /\ (updated.1 = false -> updated.2 = t)
  /\ (updated.1 = true ->
      get_project true updated.2 pid
      = set_fields now title description category <$> get_project true t pid)
  /\ (forall q, q <> pid -> get_project true updated.2 q = get_project true t q).
Proof.
  cbv zeta.
  destruct (update_project true now t pid title description category)
    as [ok t'] eqn:Eu. cbn [fst snd].
  assert (ok = true ->
          (is_Some title \/ is_Some description \/ is_Some category)
          /\ existsb (fun r => p_id r =? pid) (project_rows t) = true
          /\ title_taken t pid title = false) as Hparts.
  { intros ->. unfold update_project in Eu.
    destruct (bool_decide (is_Some title) || bool_decide (is_Some description)
              || bool_decide (is_Some category)) eqn:E1; [|discriminate].
    destruct (existsb _ _) eqn:E2; [|discriminate].
    destruct (title_taken t pid title) eqn:E3; [discriminate|].
    rewrite !orb_true_iff, !bool_decide_eq_true in E1. tauto. }
  split; [|split; [|split]].
  - split.
    + intros (Hs & He & Ht)%Hparts. split; [exact Hs|].
      split; [|by apply title_taken_spec].
      apply existsb_elem in He as (r & Hr & Hid). exists r.
      split; [exact Hr|by apply Z.eqb_eq].
    + intros (Hs & (r & Hr & Hid) & Ht).
      rewrite update_project_done in Eu; [by injection Eu as <- _|exact Hs| |].
      * apply existsb_elem. exists r. split; [exact Hr|by apply Z.eqb_eq].
      * by apply title_taken_spec.
  - intros ->. by eapply update_project_refused.
  - intros Hok. destruct (Hparts Hok) as (Hs & He & Ht). subst ok.
    rewrite update_project_done in Eu by assumption. injection Eu as <-.
    unfold get_project. cbn [project_rows].
    rewrite find_fmap_id by (intros r; by destruct (p_id r =? pid)).
    destruct (List.find _ (project_rows t)) as [r|] eqn:Ef; [|reflexivity].
    apply find_some in Ef as [_ Hid]. simpl. by rewrite Hid.
  - intros q Hq. destruct ok.
    + destruct (Hparts eq_refl) as (Hs & He & Ht).
      rewrite update_project_done in Eu by assumption. injection Eu as <-.
      unfold get_project. cbn [project_rows].
      rewrite find_fmap_id by (intros r; by destruct (p_id r =? pid)).
      destruct (List.find _ (project_rows t)) as [r|] eqn:Ef; [|reflexivity].
      apply find_some in Ef as [_ Hid]. simpl.
      apply Z.eqb_eq in Hid.
      destruct (Z.eqb_spec (p_id r) pid); [lia|reflexivity].
    + by rewrite (update_project_refused _ _ _ _ _ _ _ Eu).
Qed.

Lemma reachable_projects_invariants (t : Projects) :
  reachable_projects t ->
  Forall (fun r => p_id r <= project_sequence t) (project_rows t)
  /\ NoDup (p_id <$> project_rows t)
  /\ NoDup (p_title <$> project_rows t).
Proof.
  induction 1 as [|conn now t title descr cat _ (Hle & Hid & Htitle)
                  |conn now t pid title descr cat _ (Hle & Hid & Htitle)
                  |conn t pid _ (Hle & Hid & Htitle)].
  - simpl. repeat split; constructor.
  - unfold create_project. destruct conn; [|done].
    destruct (existsb _ _) eqn:Ex; simpl; [done|].
    split; [|split].
    + apply Forall_app. split; [|repeat constructor; simpl; lia].
      eapply Forall_impl; [exact Hle|]. simpl. intros. lia.
    + rewrite fmap_app. apply NoDup_app. split; [exact Hid|].
      split; [|apply NoDup_singleton].
      intros i Hi [= ->]%list_elem_of_singleton.
      apply list_elem_of_fmap in Hi as (r & Hr & Hin).
      rewrite Forall_forall in Hle. specialize (Hle r Hin). lia.
    + rewrite fmap_app. apply NoDup_app. split; [exact Htitle|].
      split; [|apply NoDup_singleton].
      intros m Hm [= ->]%list_elem_of_singleton.
      apply list_elem_of_fmap in Hm as (r & Hr & Hin).
      assert (existsb (fun r => bool_decide (p_title r = title)) (project_rows t)
              = true) as Ht; [|congruence].
      apply existsb_elem. exists r. split; [exact Hin|].
      by apply bool_decide_eq_true.
  - destruct conn; [|done].
    destruct (update_project true now t pid title descr cat) as [ok t'] eqn:Eu.
    destruct ok; [|by rewrite (update_project_refused _ _ _ _ _ _ _ Eu)].
    assert (existsb (fun r => p_id r =? pid) (project_rows t) = true
            /\ title_taken t pid title = false
            /\ (is_Some title \/ is_Some descr \/ is_Some cat))
      as (He & Ht & Hs).
    { unfold update_project in Eu.
      destruct (bool_decide (is_Some title) || bool_decide (is_Some descr)
                || bool_decide (is_Some cat)) eqn:E1; [|discriminate].
      destruct (existsb _ _) eqn:E2; [|discriminate].
      destruct (title_taken t pid title) eqn:E3; [discriminate|].
      rewrite !orb_true_iff, !bool_decide_eq_true in E1. tauto. }
    rewrite update_project_done in Eu by assumption. injection Eu as <-.
    cbn [snd project_rows project_sequence].
    set (f := fun r => if p_id r =? pid
                       then set_fields now title descr cat r else r).
    assert (forall r, p_id (f r) = p_id r) as Hfid
      by (intros r; unfold f; by destruct (p_id r =? pid)).
    split; [|split].
    + apply Forall_fmap. eapply Forall_impl; [exact Hle|].
      intros r Hr. simpl. by rewrite Hfid.
    + rewrite <- list_fmap_compose.
      erewrite list_fmap_ext; [exact Hid|]. intros i r _. apply Hfid.
    + rewrite <- list_fmap_compose. apply NoDup_fmap_2_strong;
        [|by eapply NoDup_fmap_1].
      intros x y Hx Hy Hxy. simpl in Hxy. unfold f in Hxy.
      pose proof (proj1 (title_taken_spec t pid title) Ht) as Hfree.
      destruct (Z.eqb_spec (p_id x) pid) as [Ex|Ex];
        destruct (Z.eqb_spec (p_id y) pid) as [Ey|Ey].
      * apply (fmap_eq_in_nodup _ _ _ _ Hid Hx Hy). congruence.
      * destruct title as [nt|]; simpl in Hxy.
        -- exfalso. by apply (Hfree nt y eq_refl Hy Ey).
        -- by apply (fmap_eq_in_nodup _ _ _ _ Htitle Hx Hy).
      * destruct title as [nt|]; simpl in Hxy.
        -- exfalso. by apply (Hfree nt x eq_refl Hx Ex).
        -- by apply (fmap_eq_in_nodup _ _ _ _ Htitle Hx Hy).
      * by apply (fmap_eq_in_nodup _ _ _ _ Htitle Hx Hy).
  - unfold delete_project. destruct conn; [|done]. simpl.
    split; [|split].
    + rewrite Forall_forall in *. intros r Hr. apply Hle.
      apply list_elem_of_In. apply list_elem_of_In, filter_In in Hr. tauto.
    + eapply sublist_NoDup; [exact Hid|]. apply fmap_sublist, filter_sublist.
    + eapply sublist_NoDup; [exact Htitle|]. apply fmap_sublist, filter_sublist.
Qed.

(** X23: through [create_project], [update_project] and
    [delete_project] no two projects ever share a title or an id. *)
Theorem project_titles_stay_unique (t : Projects) :
  reachable_projects t ->
  NoDup (p_title <$> project_rows t) /\ NoDup (p_id <$> project_rows t).
Proof.
  intros Hreach.
  destruct (reachable_projects_invariants t Hreach) as (_ & Hid & Htitle).
  by split.
Qed.

Lemma project_titles_stay_unique_sample :
  NoDup (p_title <$> project_rows
           (update_project true "2024-01-02T00:00:00" one_project 1
                           (Some "Renamed") None None).2)
  /\ NoDup (p_id <$> project_rows
              (update_project true "2024-01-02T00:00:00" one_project 1
                              (Some "Renamed") None None).2).
Proof.
  apply (project_titles_stay_unique
           (update_project true "2024-01-02T00:00:00" one_project 1
                           (Some "Renamed") None None).2).
  apply reachable_update_project, reachable_create_project, reachable_no_projects.
Defined.

(** X24: [create_project] stores a project under a new id, where
    [get_project] then finds it as given, unless the title is in use:
    then it returns [None] and changes nothing.  A second project of the
    title just stored is refused. *)
Theorem create_project_round_trip (now : string) (t : Projects)
    (title description category : string) :
  reachable_projects t ->
  let created := create_project true now t title description category in
  (created.1 = None <-> exists r, r ∈ project_rows t /\ p_title r = title)
  /\ (created.1 = None -> created.2 = t)
  /\ (forall pid, created.1 = Some pid ->
        get_project true created.2 pid
        = Some {| p_id := pid; p_title := title; p_description := description;
                  p_category := category; p_created_at := now;
                  p_updated_at := now |})
  /\ (forall now' description' category',
        (create_project true now' created.2 title description' category').1 = None).
Proof.
  intros Hreach. cbv zeta.
  destruct (reachable_projects_invariants t Hreach) as (Hle & _ & _).
  unfold create_project.
  destruct (existsb (fun r => bool_decide (p_title r = title)) (project_rows t))
    eqn:Ex; cbn [fst snd].
  - split; [|split; [done|split; [discriminate|]]].
    + split; [intros _|done].
      apply existsb_elem in Ex as (r & Hr & Ht). exists r.
      split; [exact Hr|by apply bool_decide_eq_true in Ht].
    + intros. by rewrite Ex.
  - split; [|split; [discriminate|split]].
    + split; [discriminate|]. intros (r & Hr & Ht). exfalso.
      assert (existsb (fun r => bool_decide (p_title r = title)) (project_rows t)
              = true) as H; [|congruence].
      apply existsb_elem. exists r. split; [exact Hr|by apply bool_decide_eq_true].
    + intros pid [= <-]. unfold get_project. cbn [project_rows].
      rewrite find_app.
      assert (List.find (fun r => p_id r =? project_sequence t + 1) (project_rows t)
              = None) as ->.
      { apply find_not_existsb.
        destruct (existsb (fun r => p_id r =? project_sequence t + 1)
                          (project_rows t)) eqn:E; [|reflexivity].
        apply existsb_elem in E as (r & Hr & Hid). apply Z.eqb_eq in Hid.
        rewrite Forall_forall in Hle. specialize (Hle r Hr). lia. }
      simpl. by rewrite Z.eqb_refl.
    + intros. cbn [project_rows]. rewrite existsb_app. simpl.
      by rewrite bool_decide_eq_true_2, orb_true_r by reflexivity.
Qed.

Lemma create_project_round_trip_sample :
  get_project true one_project 1
  = Some {| p_id := 1; p_title := "My First Project";
            p_description := "This is a test project.";
            p_category := "creative"; p_created_at := "2024-01-01T00:00:00";
            p_updated_at := "2024-01-01T00:00:00" |}.
Proof.
  apply (create_project_round_trip "2024-01-01T00:00:00" no_projects
           "My First Project" "This is a test project." "creative").
  - apply reachable_no_projects.
  - reflexivity.
Defined.

End TablesProofs.
